(** * tcdsl: the op-definition context, its type parameters and its
    specializations

    A shallow embedding of [tcdsl.py].  The module keeps one slot per thread,
    [_CONTEXT.op_def], holding the [OpDef] under construction; [op_def] is the
    context manager that fills and clears the slot, [type_param] and
    [specialize] mutate the [OpDef] found in the slot.

    Python objects that are mutated and shared ([OpDef]) live in a heap and
    are passed around by reference; [TypeParam] objects are never mutated by
    the module, so they are values that carry their object identity. *)

From Stdlib Require Import Ascii.
From stdpp Require Import gmap strings list fin_maps.

#[local] Set Warnings "-clear-no-such-hyp".

(** ** Python strings and the built-in displays

    A [string] stands for a Python [str] whose characters are below U+0100:
    one [ascii] per character, holding its code point.  Characters from
    U+0100 on are outside the model. *)

Module PyStr.

Definition newline : ascii := ascii_of_nat 10.
Definition tab : ascii := ascii_of_nat 9.
Definition carriage_return : ascii := ascii_of_nat 13.
Definition backslash : ascii := ascii_of_nat 92.
Definition squote : ascii := ascii_of_nat 39.
Definition dquote : ascii := ascii_of_nat 34.

Definition nl : string := String newline EmptyString.

Fixpoint contains_char (c : ascii) (s : string) : bool :=
  match s with
  | EmptyString => false
  | String d s' => Ascii.eqb c d || contains_char c s'
  end.

(** [sep.join(l)] *)
Fixpoint join (sep : string) (l : list string) : string :=
  match l with
  | [] => EmptyString
  | x :: l' =>
      match l' with
      | [] => x
      | _ :: _ => x +:+ sep +:+ join sep l'
      end
  end.

Definition hex_digit (n : nat) : ascii :=
  nth n (String.list_ascii_of_string "0123456789abcdef") "0"%char.

(** [c.isprintable()] for a character from 128 to 255: the C1 controls
    (128 to 159, category Cc), the no-break space (160, Zs) and the soft
    hyphen (173, Cf) are not printable; the others are letters, digits,
    punctuation and symbols. *)
Definition isprintable_latin1 (n : nat) : bool :=
  negb ((n <=? 160) || (n =? 173)).

(** One character of [repr(s)] for a [str], with [quote] the quote chosen
    for the whole string: the quote and the backslash get a backslash; tab,
    newline and carriage return their letter; the other characters that are
    not printable, controls or not ASCII, their two hexadecimal digits; the
    printable ones are copied. *)
Definition repr_char (quote c : ascii) : string :=
  if Ascii.eqb c quote || Ascii.eqb c backslash then
    String backslash (String c EmptyString)
  else if Ascii.eqb c tab then String backslash "t"
  else if Ascii.eqb c newline then String backslash "n"
  else if Ascii.eqb c carriage_return then String backslash "r"
  else
    let n := nat_of_ascii c in
    let hex :=
      String backslash
        (String "x" (String (hex_digit (n / 16))
           (String (hex_digit (n mod 16)) EmptyString))) in
    if (n <? 32) || (n =? 127) then hex
    else if n <? 127 then String c EmptyString
    else if negb (isprintable_latin1 n) then hex
    else String c EmptyString.

Fixpoint repr_chars (quote : ascii) (s : string) : string :=
  match s with
  | EmptyString => EmptyString
  | String c s' => repr_char quote c +:+ repr_chars quote s'
  end.

(** [repr(s)] for a [str]: single quotes, unless the string has a single
    quote and no double quote. *)
Definition repr (s : string) : string :=
  let quote :=
    if contains_char squote s && negb (contains_char dquote s)
    then dquote else squote in
  String quote (repr_chars quote s +:+ String quote EmptyString).

End PyStr.

(** ** Values *)

(** [TypeParam]: [object_id] is the identity of the Python object ([id(t)]),
    [type_symbol] its only attribute. *)
Record TypeParam := mkTypeParam {
  object_id : nat;
  type_symbol : string
}.

(** [TypeParam.__repr__] *)
Definition TypeParam_repr (self : TypeParam) : string :=
  "TypeParam('" +:+ type_symbol self +:+ "')".

(** The Python values the module meets: [None]; an instance of [mlir.ir.Type],
    opaque but for its [str] and [repr] forms; a [TypeParam]; and any other
    object, with its [str] and [repr] forms and its [type_symbol] attribute
    when it has one (a string, in that case). *)
Inductive pyval :=
  | PyNone
  | PyIrType (str_form repr_form : string)
  | PyTypeParam (t : TypeParam)
  | PyOther (str_form repr_form : string) (type_symbol_attr : option string).

(** [isinstance(v, ir.Type)] *)
Definition is_ir_Type (v : pyval) : bool :=
  match v with
  | PyIrType _ _ => true
  | _ => false
  end.

(** [str(v)]; a [TypeParam] has no [__str__], so [str] falls back on
    [__repr__]. *)
Definition py_str (v : pyval) : string :=
  match v with
  | PyNone => "None"
  | PyIrType s _ => s
  | PyTypeParam t => TypeParam_repr t
  | PyOther s _ _ => s
  end.

(** [repr(v)] *)
Definition py_repr (v : pyval) : string :=
  match v with
  | PyNone => "None"
  | PyIrType _ r => r
  | PyTypeParam t => TypeParam_repr t
  | PyOther _ r _ => r
  end.

(** [v.type_symbol]: [None] stands for the [AttributeError]. *)
Definition getattr_type_symbol (v : pyval) : option string :=
  match v with
  | PyTypeParam t => Some (type_symbol t)
  | PyOther _ _ a => a
  | _ => None
  end.

(** [TypeParam.__eq__] *)
Definition TypeParam_eq (self : TypeParam) (other : pyval) : bool :=
  match getattr_type_symbol other with
  | Some s => String.eqb s (type_symbol self)
  | None => false
  end.

(** [x in l] for a list [l] of [TypeParam]s, as the doctest of the class uses
    it: identity first, then [__eq__] with the list's element on the left. *)
Definition TypeParam_in (x : TypeParam) (l : list TypeParam) : bool :=
  existsb (fun y => (object_id y =? object_id x) || TypeParam_eq y (PyTypeParam x)) l.

(** A dict with [str] keys, in insertion order. *)
Abbreviation pydict := (list (string * pyval)).

(** [d[k] = v] *)
Fixpoint dict_set (d : pydict) (k : string) (v : pyval) : pydict :=
  match d with
  | [] => [(k, v)]
  | (k', v') :: d' =>
      if String.eqb k' k then (k', v) :: d' else (k', v') :: dict_set d' k v
  end.

(** [repr(d)] *)
Definition dict_repr (d : pydict) : string :=
  "{" +:+ PyStr.join ", " (map (fun kv => PyStr.repr kv.1 +:+ ": " +:+ py_repr kv.2) d) +:+ "}".

(** [OpDef]: the attributes set by [__init__]. *)
Record OpDef := mkOpDef {
  op_name : string;
  type_params : gmap string TypeParam;
  specializations : list pydict
}.

(** ** Exceptions, the thread's state and the monad of the module *)

Inductive exn :=
  | ValueError (msg : string)
  | TypeError (msg : string)
  | AttributeError (msg : string).

(** How a call ends: it returns, it raises, or it follows a reference to no
    object.  The last has no counterpart in Python; [wf_state] rules it out. *)
Inductive outcome (A : Type) :=
  | Return (a : A)
  | Raise (e : exn)
  | Dangling.
Arguments Return {A} a.
Arguments Raise {A} e.
Arguments Dangling {A}.

(** What one thread sees: the objects, by identity; the attribute [op_def] of
    the thread-local [_CONTEXT], [None] when the attribute is not set; and the
    identity the next object gets. *)
Record thread_state := mkState {
  heap : gmap nat OpDef;
  CONTEXT_op_def : option nat;
  next_id : nat
}.

Definition M (A : Type) : Type := thread_state -> outcome A * thread_state.

Definition ret {A} (a : A) : M A := fun st => (Return a, st).

Definition raise {A} (e : exn) : M A := fun st => (Raise e, st).

Definition bind {A B} (m : M A) (k : A -> M B) : M B :=
  fun st =>
    match m st with
    | (Return a, st') => k a st'
    | (Raise e, st') => (Raise e, st')
    | (Dangling, st') => (Dangling, st')
    end.

#[global] Instance M_ret : MRet M := @ret.
#[global] Instance M_bind : MBind M := fun A B k m => bind m k.
#[global] Instance M_throw : MThrow exn M := @raise.

(** Reading and writing the object behind a reference. *)
Definition load (self : nat) : M OpDef :=
  fun st =>
    match heap st !! self with
    | Some o => (Return o, st)
    | None => (Dangling, st)
    end.

Definition store (self : nat) (o : OpDef) : M unit :=
  fun st =>
    (Return tt,
     {| heap := <[self := o]> (heap st);
        CONTEXT_op_def := CONTEXT_op_def st;
        next_id := next_id st |}).

(** [TypeParam(type_symbol)]: a new object. *)
Definition new_TypeParam (type_symbol : string) : M TypeParam :=
  fun st =>
    (Return (mkTypeParam (next_id st) type_symbol),
     {| heap := heap st;
        CONTEXT_op_def := CONTEXT_op_def st;
        next_id := S (next_id st) |}).

(** [OpDef(op_name)]: a new object with no type parameter and no
    specialization; the result is the reference to it. *)
Definition new_OpDef (op_name : string) : M nat :=
  fun st =>
    (Return (next_id st),
     {| heap := <[next_id st := mkOpDef op_name ∅ []]> (heap st);
        CONTEXT_op_def := CONTEXT_op_def st;
        next_id := S (next_id st) |}).

(** ** The functions of the module *)

Definition nesting_msg : string := "Cannot nest multiple operations via 'OpDef'".
Definition no_active_msg : string := "The expression requires an active OpDef(...) context".

(** [hasattr(_CONTEXT, "op_def")] *)
Definition hasattr_op_def : M bool :=
  fun st => (Return (bool_decide (is_Some (CONTEXT_op_def st))), st).

(** [_CONTEXT.op_def = inst] *)
Definition setattr_op_def (inst : nat) : M unit :=
  fun st =>
    (Return tt,
     {| heap := heap st; CONTEXT_op_def := Some inst; next_id := next_id st |}).

(** [_CONTEXT.op_def], read where the attribute is known to be set; without
    it the read raises [AttributeError], as every attribute access does. *)
Definition getattr_op_def : M nat :=
  fun st =>
    match CONTEXT_op_def st with
    | Some inst => (Return inst, st)
    | None => (Raise (AttributeError "op_def"), st)
    end.

(** [del _CONTEXT.op_def], which raises [AttributeError] when the attribute
    is not set. *)
Definition delattr_op_def : M unit :=
  fun st =>
    match CONTEXT_op_def st with
    | Some _ =>
        (Return tt,
         {| heap := heap st; CONTEXT_op_def := None; next_id := next_id st |})
    | None => (Raise (AttributeError "op_def"), st)
    end.

(** [OpDef.current_op] *)
Definition current_op : M nat :=
  has ← hasattr_op_def;
  if negb has then raise (AttributeError no_active_msg)
  else getattr_op_def.

(** [OpDef.add_type_param] *)
Definition add_type_param (self : nat) (type_param : TypeParam) (exist_ok : bool) : M pyval :=
  o ← load self;
  match type_params o !! type_symbol type_param with
  | Some _ =>
      if negb exist_ok
      then raise (ValueError ("Duplicate type parameter: " +:+ TypeParam_repr type_param))
      else ret PyNone
  | None =>
      store self (mkOpDef (op_name o)
                    (<[type_symbol type_param := type_param]> (type_params o))
                    (specializations o)) ;;
      ret PyNone
  end.

(** [type_param]; [type_symbols] lists its positional arguments. *)
Fixpoint type_param (type_symbols : list string) : M pyval :=
  match type_symbols with
  | [] => ret PyNone
  | type_symbol :: rest =>
      t ← new_TypeParam type_symbol;
      op ← current_op;
      add_type_param op t false ;;
      type_param rest
  end.

(** The loop of [specialize] over [type_bindings.items()], with the dict
    [binding] built so far. *)
Fixpoint specialize_loop (op : nat) (items : pydict) (binding : pydict) : M pydict :=
  match items with
  | [] => ret binding
  | (type_symbol, ir_type) :: rest =>
      t ← new_TypeParam type_symbol;
      add_type_param op t true ;;
      if negb (is_ir_Type ir_type)
      then raise (TypeError ("Expected mlir.ir.Type but got " +:+ py_str ir_type))
      else specialize_loop op rest (dict_set binding type_symbol ir_type)
  end.

(** [specialize]; [type_bindings] lists the items of its keyword dict, in the
    dict's order. *)
Definition specialize (type_bindings : pydict) : M pyval :=
  op ← current_op;
  binding ← specialize_loop op type_bindings [];
  o ← load op;
  store op (mkOpDef (op_name o) (type_params o) (specializations o ++ [binding])) ;;
  ret PyNone.

(** [op_def] up to its [yield]: what [with op_def(op_name) as inst] runs on
    entry. *)
Definition op_def_enter (op_name : string) : M nat :=
  has ← hasattr_op_def;
  if (has : bool) then raise (ValueError nesting_msg)
  else
    inst ← new_OpDef op_name;
    setattr_op_def inst ;;
    ret inst.

(** The [finally] clause of [op_def]. *)
Definition op_def_exit : M unit := delattr_op_def.

(** [with op_def(op_name) as inst: body(inst)].  The [finally] clause runs
    however the body ends; an exception of the clause replaces the body's
    result. *)
Definition with_op_def {A} (op_name : string) (body : nat -> M A) : M A :=
  fun st =>
    match op_def_enter op_name st with
    | (Return inst, st1) =>
        let (r, st2) := body inst st1 in
        match op_def_exit st2 with
        | (Return _, st3) => (r, st3)
        | (Raise e, st3) => (Raise e, st3)
        | (Dangling, st3) => (Dangling, st3)
        end
    | (Raise e, st1) => (Raise e, st1)
    | (Dangling, st1) => (Dangling, st1)
    end.

(** [op.specializations], read through a reference. *)
Definition get_specializations (op : nat) : M (list pydict) :=
  o ← load op; ret (specializations o).

(** [name in op.type_params] *)
Definition contains (op : nat) (name : string) : M bool :=
  o ← load op; ret (bool_decide (is_Some (type_params o !! name))).

(** [OpDef.__repr__] *)
Definition OpDef_repr (self : OpDef) : string :=
  let lines := ["OpDef<" +:+ op_name self +:+ ">:"] in
  let lines :=
    fold_left (fun lines s => lines ++ ["  " +:+ dict_repr s])
              (specializations self) lines in
  PyStr.join PyStr.nl lines.

(** ** Descriptions of states and registries, used to state the theorems *)

(** The state after [k] more objects were made and the object behind [op]
    became [o]. *)
Definition updated (st : thread_state) (op : nat) (o : OpDef) (k : nat) : thread_state :=
  {| heap := <[op := o]> (heap st);
     CONTEXT_op_def := CONTEXT_op_def st;
     next_id := k + next_id st |}.

Definition with_type_params (o : OpDef) (m : gmap string TypeParam) : OpDef :=
  mkOpDef (op_name o) m (specializations o).

(** What [add_type_param] does to the dict [type_params] when it does not
    raise. *)
Definition declare_if_absent (m : gmap string TypeParam) (tp : TypeParam) : gmap string TypeParam :=
  match m !! type_symbol tp with
  | Some _ => m
  | None => <[type_symbol tp := tp]> m
  end.

(** The dict after one [TypeParam] per name was made, from identity [n] on,
    and declared if absent. *)
Fixpoint declare_all (m : gmap string TypeParam) (n : nat) (names : list string) : gmap string TypeParam :=
  match names with
  | [] => m
  | x :: rest => declare_all (declare_if_absent m (mkTypeParam n x)) (S n) rest
  end.

(** The dict [binding] at the end of the loop of [specialize]. *)
Definition binding_of (items : pydict) (binding : pydict) : pydict :=
  fold_left (fun d kv => dict_set d kv.1 kv.2) items binding.

(** ** Sequences of scope operations *)

Inductive scope_op :=
  | Enter (op_name : string)
  | Exit.

Definition run_scope_op (e : scope_op) : M unit :=
  match e with
  | Enter op_name => op_def_enter op_name ;; ret tt
  | Exit => op_def_exit
  end.

(** The operations attempted one after the other on one thread, the caller
    going on after an exception; the result lists how each one ended. *)
Fixpoint run_scope_ops (ops : list scope_op) (st : thread_state) : list (outcome unit) * thread_state :=
  match ops with
  | [] => ([], st)
  | e :: rest =>
      let (x, st1) := run_scope_op e st in
      let (xs, st2) := run_scope_ops rest st1 in
      (x :: xs, st2)
  end.

(** The scope as the specification sees it: one bit, whether a Definition
    is active. *)
Fixpoint scope_machine (ops : list scope_op) (active : bool) : list (outcome unit) :=
  match ops with
  | [] => []
  | Enter _ :: rest =>
      (if active then Raise (ValueError nesting_msg) else Return tt)
        :: scope_machine rest true
  | Exit :: rest =>
      (if active then Return tt else Raise (AttributeError "op_def"))
        :: scope_machine rest false
  end.

(** A client that specializes once per element of [calls]. *)
Fixpoint specialize_each (calls : list pydict) : M pyval :=
  match calls with
  | [] => ret PyNone
  | type_bindings :: rest => specialize type_bindings ;; specialize_each rest
  end.

(** [s.split(newline)] *)
Fixpoint lines_of (s : string) : list string :=
  match s with
  | EmptyString => [EmptyString]
  | String c s' =>
      if Ascii.eqb c PyStr.newline then EmptyString :: lines_of s'
      else
        match lines_of s' with
        | [] => [String c EmptyString]
        | l :: ls => String c l :: ls
        end
  end.

(** The context refers to an object of the heap. *)
Definition wf_state (st : thread_state) : Prop :=
  forall op, CONTEXT_op_def st = Some op -> is_Some (heap st !! op).

(** ** Invariants and clients, used to state further theorems *)

(** Every key of the registry is the [type_symbol] of the [TypeParam] it is
    bound to. *)
Definition keyed_by_name (m : gmap string TypeParam) : Prop :=
  forall k t, m !! k = Some t -> type_symbol t = k.

(** A call of one of the two functions that work on the active [OpDef]. *)
Inductive api_call :=
  | CallTypeParam (type_symbols : list string)
  | CallSpecialize (type_bindings : pydict).

Definition run_call (c : api_call) : M pyval :=
  match c with
  | CallTypeParam type_symbols => type_param type_symbols
  | CallSpecialize type_bindings => specialize type_bindings
  end.

(** A block of such calls, one statement after the other: the first
    exception ends the block. *)
Fixpoint run_calls (cs : list api_call) : M pyval :=
  match cs with
  | [] => ret PyNone
  | c :: rest => run_call c ;; run_calls rest
  end.

(** How a call can end while an [OpDef] is active: it returns [None], or it
    is a [type_param] that met a declared name, or a [specialize] that met a
    value that is no [ir.Type]. *)
Definition ends_as_inside (r : outcome pyval) : Prop :=
  r = Return PyNone \/
  (exists x, r = Raise (ValueError ("Duplicate type parameter: TypeParam('" +:+ x +:+ "')"))) \/
  (exists v, r = Raise (TypeError ("Expected mlir.ir.Type but got " +:+ v))).

(** * Lemmas on running the module *)

(** ** Running the monad *)

Lemma run_bind {A B} (m : M A) (k : A -> M B) st :
  (m ≫= k) st =
  match m st with
  | (Return a, st') => k a st'
  | (Raise e, st') => (Raise e, st')
  | (Dangling, st') => (Dangling, st')
  end.
Proof. reflexivity. Qed.

Lemma run_bind_Return {A B} (m : M A) (k : A -> M B) st a st' :
  m st = (Return a, st') -> (m ≫= k) st = k a st'.
Proof. intros H. rewrite run_bind, H. reflexivity. Qed.

Lemma run_bind_Raise {A B} (m : M A) (k : A -> M B) st e st' :
  m st = (Raise e, st') -> (m ≫= k) st = (Raise e, st').
Proof. intros H. rewrite run_bind, H. reflexivity. Qed.

Lemma updated_0 st op o :
  heap st !! op = Some o -> updated st op o 0 = st.
Proof.
  intros H. destruct st as [h c n]. unfold updated. simpl in *.
  f_equal. by apply insert_id.
Qed.

Lemma updated_updated st op o k o' k' :
  updated (updated st op o k) op o' k' = updated st op o' (k' + k).
Proof.
  unfold updated. simpl. f_equal.
  - apply insert_insert_eq.
  - lia.
Qed.

Lemma add_type_param_run self tp exist_ok st o :
  heap st !! self = Some o ->
  add_type_param self tp exist_ok st =
  match type_params o !! type_symbol tp with
  | Some _ =>
      if exist_ok then (Return PyNone, st)
      else (Raise (ValueError ("Duplicate type parameter: " +:+ TypeParam_repr tp)), st)
  | None =>
      (Return PyNone,
       updated st self (with_type_params o (<[type_symbol tp := tp]> (type_params o))) 0)
  end.
Proof.
  intros H. unfold add_type_param. rewrite run_bind. unfold load at 1. rewrite H.
  destruct (type_params o !! type_symbol tp); [by destruct exist_ok|].
  reflexivity.
Qed.

Lemma declare_if_absent_old m tp k old :
  m !! k = Some old -> declare_if_absent m tp !! k = Some old.
Proof.
  intros H. unfold declare_if_absent.
  destruct (m !! type_symbol tp) eqn:E; [done|].
  rewrite lookup_insert_ne; [done|]. intros <-. congruence.
Qed.

Lemma dom_declare_if_absent m tp :
  dom (declare_if_absent m tp) = dom m ∪ {[type_symbol tp]}.
Proof.
  unfold declare_if_absent. destruct (m !! type_symbol tp) eqn:E.
  - assert (type_symbol tp ∈ dom m) by (apply elem_of_dom; eauto). set_solver.
  - rewrite dom_insert_L. set_solver.
Qed.

Lemma declare_all_old names : forall m n k old,
  m !! k = Some old -> declare_all m n names !! k = Some old.
Proof.
  induction names as [|x rest IH]; intros m n k old H; simpl; [done|].
  apply IH. by apply declare_if_absent_old.
Qed.

Lemma dom_declare_all names : forall m n,
  dom (declare_all m n names) = dom m ∪ list_to_set names.
Proof.
  induction names as [|x rest IH]; intros m n; simpl.
  - set_solver.
  - rewrite IH, dom_declare_if_absent. simpl. set_solver.
Qed.

(** A name that [declare_all] adds is bound to a [TypeParam] of that name
    made during the call. *)
Lemma declare_all_new names : forall m n k,
  m !! k = None -> k ∈ names ->
  exists tp, declare_all m n names !! k = Some tp /\ type_symbol tp = k /\
             n <= object_id tp < n + length names.
Proof.
  induction names as [|x rest IH]; intros m n k Hk Hin; [by apply elem_of_nil in Hin|].
  simpl. destruct (decide (k = x)) as [->|Hne].
  - exists (mkTypeParam n x). split; [|simpl; split; [done|lia]].
    apply declare_all_old. unfold declare_if_absent. simpl. rewrite Hk.
    apply lookup_insert_eq.
  - apply elem_of_cons in Hin as [?|Hin]; [done|].
    destruct (IH (declare_if_absent m (mkTypeParam n x)) (S n) k) as (tp & H1 & H2 & H3); [|done|].
    + unfold declare_if_absent. simpl. destruct (m !! x); [done|].
      rewrite lookup_insert_ne; [done|congruence].
    + exists tp. repeat split; [done|done|lia|lia].
Qed.

Lemma with_type_params_id o : with_type_params o (type_params o) = o.
Proof. by destruct o. Qed.

(** One round of declaring: [add_type_param(TypeParam(x), exist_ok=True)]. *)
Lemma declare_step_run op x st o :
  heap st !! op = Some o ->
  (new_TypeParam x ≫= fun t => add_type_param op t true) st =
  (Return PyNone,
   updated st op
     (with_type_params o (declare_if_absent (type_params o) (mkTypeParam (next_id st) x))) 1).
Proof.
  intros H. rewrite run_bind. unfold new_TypeParam at 1.
  erewrite add_type_param_run by exact H.
  unfold declare_if_absent. simpl.
  destruct (type_params o !! x) eqn:E; [|reflexivity].
  rewrite with_type_params_id. f_equal.
  destruct st as [h c n]. unfold updated. simpl in *. f_equal.
  symmetry. by apply insert_id.
Qed.

Lemma heap_updated st op o k : heap (updated st op o k) !! op = Some o.
Proof. apply lookup_insert_eq. Qed.

Lemma run_bind_assoc {A B C} (m : M A) (f : A -> M B) (g : B -> M C) st :
  (m ≫= fun x => f x ≫= g) st = ((m ≫= f) ≫= g) st.
Proof. rewrite !run_bind. destruct (m st) as [[a|e|] st']; reflexivity. Qed.

Lemma declare_step_then {A} op x (k : M A) st o :
  heap st !! op = Some o ->
  (new_TypeParam x ≫= fun t => add_type_param op t true ≫= fun _ => k) st =
  k (updated st op
       (with_type_params o (declare_if_absent (type_params o) (mkTypeParam (next_id st) x))) 1).
Proof.
  intros H. rewrite (run_bind_assoc (new_TypeParam x)).
  erewrite run_bind_Return by (by apply declare_step_run). reflexivity.
Qed.

Lemma specialize_loop_ok op items : forall binding st o,
  heap st !! op = Some o ->
  forallb (fun kv => is_ir_Type kv.2) items = true ->
  specialize_loop op items binding st =
  (Return (binding_of items binding),
   updated st op
     (with_type_params o (declare_all (type_params o) (next_id st) items.*1))
     (length items)).
Proof.
  induction items as [|[k v] rest IH]; intros binding st o Hop Hall.
  - simpl. rewrite with_type_params_id, updated_0 by done. reflexivity.
  - simpl in Hall. apply andb_prop in Hall as [Hv Hrest].
    cbn [specialize_loop].
    erewrite declare_step_then by exact Hop.
    rewrite Hv. cbn [negb].
    erewrite IH; [|apply heap_updated|done].
    rewrite updated_updated. cbn. do 2 f_equal. lia.
Qed.

(** The loop stops at the first value that is no [ir.Type]: the names up to
    it have been declared, this one included. *)
Lemma specialize_loop_raise op pre k v post : forall binding st o,
  heap st !! op = Some o ->
  forallb (fun kv => is_ir_Type kv.2) pre = true ->
  is_ir_Type v = false ->
  specialize_loop op (pre ++ (k, v) :: post) binding st =
  (Raise (TypeError ("Expected mlir.ir.Type but got " +:+ py_str v)),
   updated st op
     (with_type_params o (declare_all (type_params o) (next_id st) (pre.*1 ++ [k])))
     (S (length pre))).
Proof.
  induction pre as [|[k' v'] pre IH]; intros binding st o Hop Hall Hv.
  - cbn [app specialize_loop].
    erewrite declare_step_then by exact Hop.
    rewrite Hv. reflexivity.
  - simpl in Hall. apply andb_prop in Hall as [Hv' Hpre].
    cbn [app specialize_loop].
    erewrite declare_step_then by exact Hop.
    rewrite Hv'. cbn [negb].
    erewrite IH; [|apply heap_updated|done|done].
    rewrite updated_updated. cbn. do 2 f_equal. lia.
Qed.

Lemma current_op_active st op :
  CONTEXT_op_def st = Some op -> current_op st = (Return op, st).
Proof.
  intros H. unfold current_op, hasattr_op_def, getattr_op_def.
  rewrite run_bind, H. cbn. by rewrite H.
Qed.

Lemma current_op_inactive st :
  CONTEXT_op_def st = None ->
  current_op st = (Raise (AttributeError no_active_msg), st).
Proof.
  intros H. unfold current_op, hasattr_op_def. rewrite run_bind, H. by cbn.
Qed.

Lemma heap_updated_ne st op o k l :
  l <> op -> heap (updated st op o k) !! l = heap st !! l.
Proof. intros H. unfold updated. simpl. by rewrite lookup_insert_ne. Qed.

Lemma specialize_ok st op o items :
  CONTEXT_op_def st = Some op ->
  heap st !! op = Some o ->
  forallb (fun kv => is_ir_Type kv.2) items = true ->
  specialize items st =
  (Return PyNone,
   updated st op
     (mkOpDef (op_name o)
        (declare_all (type_params o) (next_id st) items.*1)
        (specializations o ++ [binding_of items []]))
     (length items)).
Proof.
  intros Hctx Hop Hall. unfold specialize.
  erewrite run_bind_Return by (by apply current_op_active).
  erewrite run_bind_Return by (by apply specialize_loop_ok).
  rewrite run_bind. unfold load at 1. rewrite heap_updated.
  rewrite run_bind. unfold store at 1. cbn.
  f_equal. unfold updated. cbn. f_equal. apply insert_insert_eq.
Qed.

Lemma specialize_raise st op o pre k v post :
  CONTEXT_op_def st = Some op ->
  heap st !! op = Some o ->
  forallb (fun kv => is_ir_Type kv.2) pre = true ->
  is_ir_Type v = false ->
  specialize (pre ++ (k, v) :: post) st =
  (Raise (TypeError ("Expected mlir.ir.Type but got " +:+ py_str v)),
   updated st op
     (with_type_params o (declare_all (type_params o) (next_id st) (pre.*1 ++ [k])))
     (S (length pre))).
Proof.
  intros Hctx Hop Hall Hv. unfold specialize.
  erewrite run_bind_Return by (by apply current_op_active).
  erewrite run_bind_Raise by (by apply specialize_loop_raise). reflexivity.
Qed.

Lemma specialize_inactive st items :
  CONTEXT_op_def st = None ->
  specialize items st = (Raise (AttributeError no_active_msg), st).
Proof.
  intros H. unfold specialize.
  erewrite run_bind_Raise by (by apply current_op_inactive). reflexivity.
Qed.

(** One round of [type_param]. *)
Lemma type_param_step st op o x rest :
  CONTEXT_op_def st = Some op ->
  heap st !! op = Some o ->
  type_param (x :: rest) st =
  match type_params o !! x with
  | Some _ =>
      (Raise (ValueError ("Duplicate type parameter: " +:+
                          TypeParam_repr (mkTypeParam (next_id st) x))),
       updated st op o 1)
  | None =>
      type_param rest
        (updated st op
           (with_type_params o (<[x := mkTypeParam (next_id st) x]> (type_params o))) 1)
  end.
Proof.
  intros Hctx Hop. cbn [type_param].
  rewrite run_bind. unfold new_TypeParam at 1.
  erewrite run_bind_Return by (by apply current_op_active).
  rewrite run_bind. erewrite add_type_param_run by exact Hop. cbn.
  destruct (type_params o !! x) eqn:E; [|reflexivity].
  f_equal. unfold updated. cbn. f_equal. symmetry. by apply insert_id.
Qed.

Lemma declare_all_fresh_head m n x rest :
  m !! x = None ->
  declare_all m n (x :: rest) = declare_all (<[x := mkTypeParam n x]> m) (S n) rest.
Proof. intros H. simpl. unfold declare_if_absent. simpl. by rewrite H. Qed.

Lemma type_param_ok names : forall st op o,
  CONTEXT_op_def st = Some op ->
  heap st !! op = Some o ->
  NoDup names ->
  (forall x, x ∈ names -> type_params o !! x = None) ->
  type_param names st =
  (Return PyNone,
   updated st op
     (with_type_params o (declare_all (type_params o) (next_id st) names))
     (length names)).
Proof.
  induction names as [|x rest IH]; intros st op o Hctx Hop Hnd Hfresh.
  - simpl. rewrite with_type_params_id, updated_0 by done. reflexivity.
  - apply NoDup_cons in Hnd as [Hx Hnd].
    erewrite type_param_step by done.
    rewrite (Hfresh x) by set_solver.
    erewrite IH; [|done|apply heap_updated|done|].
    + rewrite updated_updated, declare_all_fresh_head by (apply Hfresh; set_solver).
      cbn. do 2 f_equal. lia.
    + intros y Hy. cbn. rewrite lookup_insert_ne by set_solver.
      apply Hfresh. set_solver.
Qed.

(** [type_param] stops at the first name that is already declared, before
    the call or earlier in it; the names before it have been declared. *)
Lemma type_param_raise pre x post : forall st op o,
  CONTEXT_op_def st = Some op ->
  heap st !! op = Some o ->
  NoDup pre ->
  (forall y, y ∈ pre -> type_params o !! y = None) ->
  is_Some (type_params o !! x) \/ x ∈ pre ->
  type_param (pre ++ x :: post) st =
  (Raise (ValueError ("Duplicate type parameter: TypeParam('" +:+ x +:+ "')")),
   updated st op
     (with_type_params o (declare_all (type_params o) (next_id st) pre))
     (S (length pre))).
Proof.
  induction pre as [|y pre IH]; intros st op o Hctx Hop Hnd Hfresh Hdup.
  - destruct Hdup as [[old Hold]|Hin]; [|by apply elem_of_nil in Hin].
    cbn [app]. erewrite type_param_step by done. rewrite Hold.
    cbn. by rewrite with_type_params_id.
  - apply NoDup_cons in Hnd as [Hy Hnd].
    cbn [app]. erewrite type_param_step by done.
    rewrite (Hfresh y) by set_solver.
    erewrite IH; [|done|apply heap_updated|done| |].
    + rewrite updated_updated, declare_all_fresh_head by (apply Hfresh; set_solver).
      cbn. do 2 f_equal. lia.
    + intros z Hz. cbn. rewrite lookup_insert_ne by set_solver.
      apply Hfresh. set_solver.
    + cbn. destruct (decide (x = y)) as [->|Hne].
      * left. rewrite lookup_insert_eq. eauto.
      * rewrite lookup_insert_ne by done.
        destruct Hdup as [?|Hin]; [by left|]. right. set_solver.
Qed.

(** * The definition scope *)

Lemma op_def_enter_active st name :
  is_Some (CONTEXT_op_def st) ->
  op_def_enter name st = (Raise (ValueError nesting_msg), st).
Proof.
  intros [inst H]. unfold op_def_enter, hasattr_op_def.
  rewrite run_bind, H. by cbn.
Qed.

Lemma op_def_enter_inactive st name :
  CONTEXT_op_def st = None ->
  op_def_enter name st =
  (Return (next_id st),
   {| heap := <[next_id st := mkOpDef name ∅ []]> (heap st);
      CONTEXT_op_def := Some (next_id st);
      next_id := S (next_id st) |}).
Proof.
  intros H. unfold op_def_enter, hasattr_op_def.
  rewrite run_bind, H. by cbn.
Qed.

Lemma op_def_exit_clears st : CONTEXT_op_def (op_def_exit st).2 = None.
Proof.
  unfold op_def_exit, delattr_op_def.
  destruct (CONTEXT_op_def st) eqn:E; [reflexivity|exact E].
Qed.

Lemma op_def_exit_active st :
  is_Some (CONTEXT_op_def st) ->
  op_def_exit st =
  (Return tt, {| heap := heap st; CONTEXT_op_def := None; next_id := next_id st |}).
Proof. intros [inst H]. unfold op_def_exit, delattr_op_def. by rewrite H. Qed.

Lemma with_op_def_clears {A} name (body : nat -> M A) st :
  CONTEXT_op_def st = None ->
  CONTEXT_op_def (with_op_def name body st).2 = None.
Proof.
  intros H. unfold with_op_def. rewrite op_def_enter_inactive by done.
  destruct (body _ _) as [r st2].
  pose proof (op_def_exit_clears st2) as Hc.
  destruct (op_def_exit st2) as [[[]|e|] st3]; exact Hc.
Qed.

Lemma run_scope_ops_machine ops : forall st,
  (run_scope_ops ops st).1 =
  scope_machine ops (bool_decide (is_Some (CONTEXT_op_def st))).
Proof.
  induction ops as [|[name|] rest IH]; intros st; [reflexivity| |].
  - cbn [run_scope_ops scope_machine run_scope_op].
    destruct (CONTEXT_op_def st) as [inst|] eqn:E.
    + rewrite run_bind, op_def_enter_active by (rewrite E; eauto).
      specialize (IH st). destruct (run_scope_ops rest st) as [xs st2].
      cbn in *. rewrite IH, E. reflexivity.
    + rewrite run_bind, op_def_enter_inactive by done.
      cbn [mret M_ret ret].
      match goal with |- context [run_scope_ops rest ?s] => specialize (IH s) end.
      destruct (run_scope_ops rest _) as [xs st2]. cbn in *. by rewrite IH.
  - cbn [run_scope_ops scope_machine run_scope_op].
    pose proof (op_def_exit_clears st) as Hc.
    destruct (CONTEXT_op_def st) as [inst|] eqn:E.
    + rewrite op_def_exit_active in * by (rewrite E; eauto).
      match goal with |- context [run_scope_ops rest ?s] => specialize (IH s) end.
      destruct (run_scope_ops rest _) as [xs st2]. cbn in *. by rewrite IH.
    + unfold op_def_exit, delattr_op_def in *. rewrite E in *.
      specialize (IH st). destruct (run_scope_ops rest st) as [xs st2].
      cbn in *. rewrite IH, E. reflexivity.
Qed.

(** C1. The scope as a state machine.  Every sequence of enter and exit
    operations ends, operation by operation, as the two-state machine of the
    specification says.  While an [OpDef] is active, entering
    again raises the nesting [ValueError] and leaves the state as it was.
    The exit clause leaves no [OpDef] active, whatever the state it runs in;
    inside [with], it runs however the body ends: when the body raises, the
    exception comes out of the [with] and no [OpDef] is active any more.
    After the exit clause, entering succeeds and the new [OpDef] is the
    active one. *)
Theorem C1_scope_state_machine :
  (forall ops st,
     (run_scope_ops ops st).1 =
     scope_machine ops (bool_decide (is_Some (CONTEXT_op_def st)))) /\
  (forall st name,
     is_Some (CONTEXT_op_def st) ->
     op_def_enter name st = (Raise (ValueError nesting_msg), st)) /\
  (forall st, CONTEXT_op_def (op_def_exit st).2 = None) /\
  (forall A name (body : nat -> M A) st,
     CONTEXT_op_def st = None ->
     CONTEXT_op_def (with_op_def name body st).2 = None) /\
  (forall A name (body : nat -> M A) st e st2,
     CONTEXT_op_def st = None ->
     body (next_id st) (op_def_enter name st).2 = (Raise e, st2) ->
     is_Some (CONTEXT_op_def st2) ->
     with_op_def name body st =
     (Raise e, {| heap := heap st2; CONTEXT_op_def := None; next_id := next_id st2 |})) /\
  (forall st name,
     exists inst st',
       op_def_enter name (op_def_exit st).2 = (Return inst, st') /\
       CONTEXT_op_def st' = Some inst /\
       heap st' !! inst = Some (mkOpDef name ∅ [])).
Proof.
  split; [exact run_scope_ops_machine|].
  split; [exact op_def_enter_active|].
  split; [exact op_def_exit_clears|].
  split; [exact @with_op_def_clears|].
  split.
  - intros A name body st e st2 Hst Hbody Hact.
    unfold with_op_def. rewrite op_def_enter_inactive in * by done.
    cbn [snd] in Hbody. rewrite Hbody, op_def_exit_active by done. reflexivity.
  - intros st name. eexists _, _.
    rewrite op_def_enter_inactive by apply op_def_exit_clears.
    split; [reflexivity|]. split; [reflexivity|]. cbn. apply lookup_insert_eq.
Qed.

Lemma C1_scope_state_machine_witness :
  let st := mkState ∅ None 0 in
  let st_a := (op_def_enter "a" st).2 in
  op_def_enter "b" st_a = (Raise (ValueError nesting_msg), st_a) /\
  exists inst st', op_def_enter "b" (op_def_exit st_a).2 = (Return inst, st').
Proof.
  destruct C1_scope_state_machine as (_ & Henter & _ & _ & _ & Hafter).
  split.
  - apply Henter. vm_compute. eauto.
  - destruct (Hafter (op_def_enter "a" (mkState ∅ None 0)).2 "b") as (inst & st' & H & _).
    exists inst, st'. exact H.
Defined.

(** * Operations that need an active definition *)

Lemma type_param_inactive st x rest :
  CONTEXT_op_def st = None ->
  type_param (x :: rest) st =
  (Raise (AttributeError no_active_msg),
   {| heap := heap st; CONTEXT_op_def := None; next_id := S (next_id st) |}).
Proof.
  intros H. cbn [type_param]. rewrite run_bind. unfold new_TypeParam at 1.
  erewrite run_bind_Raise; [|by apply current_op_inactive].
  by rewrite H.
Qed.

(** C7. With no [OpDef] active, [type_param] with at least one name,
    [specialize] and [current_op] raise the [AttributeError] of
    [current_op].  With one active, [current_op] returns the reference held
    by the context, the very one [op_def] gave to the owner of the scope,
    and makes no object; what is done through it is seen through the
    owner's reference. *)
Theorem C7_requires_active_definition :
  (forall st,
     CONTEXT_op_def st = None ->
     (forall type_symbols,
        type_symbols <> [] ->
        (type_param type_symbols st).1 = Raise (AttributeError no_active_msg)) /\
     (forall type_bindings,
        specialize type_bindings st = (Raise (AttributeError no_active_msg), st)) /\
     current_op st = (Raise (AttributeError no_active_msg), st)) /\
  (forall st inst,
     CONTEXT_op_def st = Some inst ->
     current_op st = (Return inst, st)) /\
  (forall st op_name inst st1,
     op_def_enter op_name st = (Return inst, st1) ->
     current_op st1 = (Return inst, st1) /\
     forall t,
       exists st2 o2,
         (current_op ≫= fun h => add_type_param h t false) st1 = (Return PyNone, st2) /\
         heap st2 !! inst = Some o2 /\
         type_params o2 !! type_symbol t = Some t).
Proof.
  split; [|split].
  - intros st H. split; [|split].
    + intros [|x rest] Hne; [done|]. by rewrite type_param_inactive.
    + intros items. by apply specialize_inactive.
    + by apply current_op_inactive.
  - intros st inst H. by apply current_op_active.
  - intros st name inst st1 Henter.
    destruct (CONTEXT_op_def st) as [old|] eqn:E.
    { rewrite op_def_enter_active in Henter by (rewrite E; eauto). discriminate. }
    rewrite op_def_enter_inactive in Henter by done.
    injection Henter as <- <-.
    split; [by apply current_op_active|].
    intros t. eexists _, _.
    erewrite run_bind_Return by (by apply current_op_active).
    erewrite add_type_param_run by (cbn; apply lookup_insert_eq).
    cbn [type_params]. rewrite lookup_empty.
    split; [reflexivity|]. split; [apply heap_updated|].
    cbn. apply lookup_insert_eq.
Qed.

Lemma C7_requires_active_definition_witness :
  let st := mkState ∅ None 0 in
  (type_param ["I"] st).1 = Raise (AttributeError no_active_msg) /\
  specialize [("T", PyIrType "f32" "Type(f32)")] st = (Raise (AttributeError no_active_msg), st) /\
  current_op (op_def_enter "matmul" st).2 = (Return 0, (op_def_enter "matmul" st).2).
Proof.
  destruct C7_requires_active_definition as (Hnone & Hsome & _).
  destruct (Hnone (mkState ∅ None 0) eq_refl) as (Hdecl & Hspec & _).
  split; [by apply Hdecl|]. split; [apply Hspec|].
  apply Hsome. reflexivity.
Defined.

(** A call of [type_param] with no name at all never looks for the active
    [OpDef]: it returns. *)
Example type_param_no_name st : type_param [] st = (Return PyNone, st).
Proof. reflexivity. Qed.

(** * Equality of type parameters *)

(** C8. Two [TypeParam]s compare equal exactly when their [type_symbol]s
    are the same string, whatever their identities; the comparison is
    reflexive and symmetric. *)
Theorem C8_TypeParam_eq_by_name (a b : TypeParam) :
  (TypeParam_eq a (PyTypeParam b) = true <-> type_symbol a = type_symbol b) /\
  TypeParam_eq a (PyTypeParam a) = true /\
  TypeParam_eq a (PyTypeParam b) = TypeParam_eq b (PyTypeParam a).
Proof.
  unfold TypeParam_eq. cbn [getattr_type_symbol].
  split; [|split].
  - rewrite String.eqb_eq. split; congruence.
  - apply String.eqb_refl.
  - apply String.eqb_sym.
Qed.

(** The doctests of [TypeParam]. *)
Example TypeParam_doctest :
  TypeParam_repr (mkTypeParam 0 "foo") = "TypeParam('foo')" /\
  TypeParam_eq (mkTypeParam 0 "foo") (PyTypeParam (mkTypeParam 1 "bar")) = false /\
  TypeParam_eq (mkTypeParam 0 "foo") (PyTypeParam (mkTypeParam 1 "foo")) = true /\
  TypeParam_in (mkTypeParam 0 "foo") [mkTypeParam 1 "foo"; mkTypeParam 2 "bar"] = true /\
  TypeParam_in (mkTypeParam 0 "foo") [mkTypeParam 1 "bar"] = false.
Proof. repeat split. Qed.

(** An object without a [type_symbol] is equal to no [TypeParam]. *)
Lemma TypeParam_eq_no_attribute (a : TypeParam) (other : pyval) :
  getattr_type_symbol other = None -> TypeParam_eq a other = false.
Proof. intros H. unfold TypeParam_eq. by rewrite H. Qed.

(** * Specializations *)

Lemma contains_run st op o name :
  heap st !! op = Some o ->
  contains op name st = (Return (bool_decide (is_Some (type_params o !! name))), st).
Proof. intros H. unfold contains. rewrite run_bind. unfold load at 1. by rewrite H. Qed.

Lemma get_specializations_run st op o :
  heap st !! op = Some o ->
  get_specializations op st = (Return (specializations o), st).
Proof.
  intros H. unfold get_specializations. rewrite run_bind. unfold load at 1.
  by rewrite H.
Qed.

(** A keyword dict has each key once: the loop copies it as it is. *)
Lemma binding_of_app items : forall binding,
  NoDup (binding.*1 ++ items.*1) ->
  binding_of items binding = binding ++ items.
Proof.
  assert (Hset : forall (d : pydict) k v, k ∉ d.*1 -> dict_set d k v = d ++ [(k, v)]).
  { induction d as [|[k' v'] d IH]; intros k v Hk; [reflexivity|].
    cbn. destruct (String.eqb_spec k' k) as [->|Hne].
    - exfalso. apply Hk. cbn. set_solver.
    - rewrite IH; [reflexivity|]. cbn in Hk. set_solver. }
  induction items as [|[k v] items IH]; intros binding Hnd.
  - cbn. by rewrite app_nil_r.
  - cbn [binding_of fold_left fst snd]. cbn in Hnd.
    apply NoDup_app in Hnd as (Hb & Hdisj & Hi).
    apply NoDup_cons in Hi as [Hk Hi].
    rewrite Hset by (intros Hin; apply (Hdisj _ Hin); set_solver).
    fold (binding_of items (binding ++ [(k, v)])).
    rewrite IH.
    + by rewrite <- app_assoc.
    + rewrite fmap_app. cbn. rewrite <- app_assoc. cbn.
      apply NoDup_app. split; [done|]. split.
      * intros x Hx. specialize (Hdisj x Hx). set_solver.
      * by apply NoDup_cons.
Qed.

Lemma binding_of_keyword_dict items :
  NoDup items.*1 -> binding_of items [] = items.
Proof. intros H. by rewrite binding_of_app. Qed.

(** C3. Specializing declares.  With an [OpDef] active, a name its registry
    does not have and a value that is an [ir.Type], [specialize] of the one
    binding returns; after it the name is in the registry and the binding
    is the last element of [specializations], behind the earlier ones. *)
Theorem C3_specialize_declares st op o name v :
  CONTEXT_op_def st = Some op ->
  heap st !! op = Some o ->
  type_params o !! name = None ->
  is_ir_Type v = true ->
  exists st',
    specialize [(name, v)] st = (Return PyNone, st') /\
    contains op name st' = (Return true, st') /\
    get_specializations op st' = (Return (specializations o ++ [[(name, v)]]), st').
Proof.
  intros Hctx Hop Hname Hv. eexists. split.
  - apply specialize_ok; [done|done|]. cbn. by rewrite Hv.
  - split.
    + erewrite contains_run by apply heap_updated.
      cbn. unfold declare_if_absent. cbn. rewrite Hname, lookup_insert_eq.
      f_equal.
    + erewrite get_specializations_run by apply heap_updated.
      cbn. unfold binding_of. cbn. reflexivity.
Qed.

Lemma C3_specialize_declares_witness :
  exists st',
    specialize [("T", PyIrType "f32" "Type(f32)")] (op_def_enter "matmul" (mkState ∅ None 0)).2 =
      (Return PyNone, st') /\
    contains 0 "T" st' = (Return true, st') /\
    get_specializations 0 st' = (Return [[("T", PyIrType "f32" "Type(f32)")]], st').
Proof.
  exact (C3_specialize_declares
           (op_def_enter "matmul" (mkState ∅ None 0)).2 0 (mkOpDef "matmul" ∅ [])
           "T" (PyIrType "f32" "Type(f32)") eq_refl eq_refl eq_refl eq_refl).
Defined.

(** C2, as the code has it.  With an [OpDef] active, a call of [specialize]
    whose first value that is no [ir.Type] is [v], bound to [k], raises a
    [TypeError] whose message shows [str(v)] and not [k]: the exception is
    the same under any other name.  Nothing is appended to
    [specializations], and [k] is in the registry afterwards. *)
Theorem C2_failing_specialize st op o pre k v post :
  CONTEXT_op_def st = Some op ->
  heap st !! op = Some o ->
  forallb (fun kv => is_ir_Type kv.2) pre = true ->
  is_ir_Type v = false ->
  exists st',
    specialize (pre ++ (k, v) :: post) st =
      (Raise (TypeError ("Expected mlir.ir.Type but got " +:+ py_str v)), st') /\
    (forall k',
       (specialize (pre ++ (k', v) :: post) st).1 =
       Raise (TypeError ("Expected mlir.ir.Type but got " +:+ py_str v))) /\
    get_specializations op st' = (Return (specializations o), st') /\
    contains op k st' = (Return true, st').
Proof.
  intros Hctx Hop Hpre Hv. eexists. split; [by apply specialize_raise|].
  split; [intros k'; by erewrite specialize_raise|]. split.
  - by erewrite get_specializations_run by apply heap_updated.
  - erewrite contains_run by apply heap_updated.
    rewrite bool_decide_eq_true_2; [done|]. apply elem_of_dom.
    cbn [type_params with_type_params]. rewrite dom_declare_all. set_solver.
Qed.

Lemma C2_failing_specialize_witness :
  exists st',
    specialize [("T", PyIrType "f32" "Type(f32)"); ("X", PyOther "5" "5" None)]
               (op_def_enter "matmul" (mkState ∅ None 0)).2 =
      (Raise (TypeError "Expected mlir.ir.Type but got 5"), st') /\
    get_specializations 0 st' = (Return [], st') /\
    contains 0 "X" st' = (Return true, st').
Proof.
  destruct (C2_failing_specialize
              (op_def_enter "matmul" (mkState ∅ None 0)).2 0 (mkOpDef "matmul" ∅ [])
              [("T", PyIrType "f32" "Type(f32)")] "X" (PyOther "5" "5" None) [])
    as (st' & H1 & _ & H2 & H3); [reflexivity..|].
  exists st'. split; [exact H1|]. split; [exact H2|exact H3].
Defined.

(** C2 as stated fails: the exception of a rejected binding does not name
    the binding.  Here the name is [X]; the message has no [X] in it, and
    it is the message of the same call under the name [Y]. *)
Lemma C2_error_does_not_name_the_binding :
  (specialize [("X", PyOther "5" "5" None)]
              (op_def_enter "matmul" (mkState ∅ None 0)).2).1 =
    Raise (TypeError "Expected mlir.ir.Type but got 5") /\
  String.index 0 "X" "Expected mlir.ir.Type but got 5" = None /\
  (specialize [("Y", PyOther "5" "5" None)]
              (op_def_enter "matmul" (mkState ∅ None 0)).2).1 =
    Raise (TypeError "Expected mlir.ir.Type but got 5").
Proof. repeat split; vm_compute; reflexivity. Qed.

(** C10. The bindings are handled in their order, the name declared before
    the value is looked at.  When [v], bound to [k], is the first value that
    is no [ir.Type], the call raises there: the registry has gained the names
    up to [k], [k] included, and only those, so a later name that was not
    declared stays undeclared; the entries it had are as they were; the name
    of the [OpDef], its specializations, the active context and every other
    object are as before the call. *)
Theorem C10_specialize_stops_at_first_invalid st op o pre k v post :
  CONTEXT_op_def st = Some op ->
  heap st !! op = Some o ->
  forallb (fun kv => is_ir_Type kv.2) pre = true ->
  is_ir_Type v = false ->
  exists st' o',
    specialize (pre ++ (k, v) :: post) st =
      (Raise (TypeError ("Expected mlir.ir.Type but got " +:+ py_str v)), st') /\
    heap st' !! op = Some o' /\
    dom (type_params o') = dom (type_params o) ∪ list_to_set (pre.*1 ++ [k]) /\
    (forall x, x ∈ pre.*1 ++ [k] -> is_Some (type_params o' !! x)) /\
    (forall x, x ∈ post.*1 -> x ∉ pre.*1 ++ [k] -> type_params o !! x = None ->
               type_params o' !! x = None) /\
    (forall x old, type_params o !! x = Some old -> type_params o' !! x = Some old) /\
    op_name o' = op_name o /\
    specializations o' = specializations o /\
    CONTEXT_op_def st' = CONTEXT_op_def st /\
    (forall l, l <> op -> heap st' !! l = heap st !! l).
Proof.
  intros Hctx Hop Hpre Hv. eexists _, _.
  split; [by apply specialize_raise|].
  split; [apply heap_updated|].
  cbn [type_params with_type_params op_name specializations].
  split; [apply dom_declare_all|].
  split.
  { intros x Hx. apply elem_of_dom. rewrite dom_declare_all. set_solver. }
  split.
  { intros x _ Hx Hnone. apply not_elem_of_dom. rewrite dom_declare_all.
    apply not_elem_of_dom in Hnone. set_solver. }
  split; [intros x old; apply declare_all_old|].
  split; [reflexivity|]. split; [reflexivity|]. split; [reflexivity|].
  intros l Hl. by apply heap_updated_ne.
Qed.

Lemma C10_specialize_stops_at_first_invalid_witness :
  exists st' o',
    specialize [("A", PyIrType "f32" "Type(f32)"); ("B", PyOther "5" "5" None);
                ("C", PyIrType "f32" "Type(f32)")]
               (op_def_enter "m" (mkState ∅ None 0)).2 =
      (Raise (TypeError "Expected mlir.ir.Type but got 5"), st') /\
    heap st' !! 0 = Some o' /\
    is_Some (type_params o' !! "A") /\
    is_Some (type_params o' !! "B") /\
    type_params o' !! "C" = None /\
    specializations o' = [].
Proof.
  destruct (C10_specialize_stops_at_first_invalid
              (op_def_enter "m" (mkState ∅ None 0)).2 0 (mkOpDef "m" ∅ [])
              [("A", PyIrType "f32" "Type(f32)")] "B" (PyOther "5" "5" None)
              [("C", PyIrType "f32" "Type(f32)")])
    as (st' & o' & H1 & H2 & _ & Hin & Hout & _ & _ & Hspecs & _); [reflexivity..|].
  exists st', o'. split; [exact H1|]. split; [exact H2|].
  split; [apply Hin; cbn; set_solver|].
  split; [apply Hin; cbn; set_solver|].
  split; [|exact Hspecs].
  apply Hout; [cbn; set_solver| |reflexivity].
  cbn. intros Hc. apply elem_of_cons in Hc as [Hc|Hc]; [discriminate|].
  apply elem_of_cons in Hc as [Hc|Hc]; [discriminate|]. by apply elem_of_nil in Hc.
Defined.

(** * The registry of type parameters *)

(** Every call of [type_param] that meets a name already declared, before
    the call or earlier in it, splits at the first such name. *)
Lemma first_duplicate names : forall (m : gmap string TypeParam),
  ~ NoDup names \/ (exists x, x ∈ names /\ is_Some (m !! x)) ->
  exists pre x post,
    names = pre ++ x :: post /\ NoDup pre /\
    (forall y, y ∈ pre -> m !! y = None) /\
    (is_Some (m !! x) \/ x ∈ pre).
Proof.
  induction names as [|a rest IH]; intros m Hdup.
  - destruct Hdup as [Hnd|(x & Hx & _)]; [destruct Hnd; constructor|].
    by apply elem_of_nil in Hx.
  - destruct (m !! a) as [old|] eqn:Ea.
    { exists [], a, rest. repeat split; [constructor|set_solver|left; eauto]. }
    destruct (IH (<[a := mkTypeParam 0 a]> m)) as (pre & x & post & -> & Hnd & Hfresh & Hx).
    { destruct (decide (a ∈ rest)) as [Hin|Hnin].
      - right. exists a. split; [done|]. rewrite lookup_insert_eq. eauto.
      - destruct Hdup as [Hnd|(x & Hx & Hsome)].
        + left. intros Hrest. apply Hnd. by apply NoDup_cons.
        + apply elem_of_cons in Hx as [->|Hx]; [rewrite Ea in Hsome; by destruct Hsome|].
          right. exists x. split; [done|].
          destruct (decide (a = x)) as [<-|Hne]; [done|].
          by rewrite lookup_insert_ne. }
    assert (Ha : a ∉ pre).
    { intros Hin. specialize (Hfresh a Hin). by rewrite lookup_insert_eq in Hfresh. }
    exists (a :: pre), x, post. split; [reflexivity|].
    split; [by apply NoDup_cons|]. split.
    + intros y Hy. apply elem_of_cons in Hy as [->|Hy]; [done|].
      specialize (Hfresh y Hy).
      destruct (decide (a = y)) as [<-|Hne]; [done|].
      by rewrite lookup_insert_ne in Hfresh.
    + destruct Hx as [Hx|Hx]; [|right; set_solver].
      destruct (decide (a = x)) as [<-|Hne]; [right; set_solver|].
      left. by rewrite lookup_insert_ne in Hx.
Qed.

(** C4. Declaring a name again.  With an [OpDef] active, let [x] be the
    first name of the call that is already declared, by an earlier call or
    earlier in this one, after the names [pre].  The call raises the
    [ValueError] that names [x].  The entries the registry had are as they
    were; every name of [pre] is in it, bound to the [TypeParam] made for it
    and not to the one made for the repeated name; no other name came in. *)
Theorem C4_duplicate_declaration st op o pre x post :
  CONTEXT_op_def st = Some op ->
  heap st !! op = Some o ->
  NoDup pre ->
  (forall y, y ∈ pre -> type_params o !! y = None) ->
  is_Some (type_params o !! x) \/ x ∈ pre ->
  exists st' o',
    type_param (pre ++ x :: post) st =
      (Raise (ValueError ("Duplicate type parameter: TypeParam('" +:+ x +:+ "')")), st') /\
    heap st' !! op = Some o' /\
    (forall k old, type_params o !! k = Some old -> type_params o' !! k = Some old) /\
    (forall y, y ∈ pre ->
       exists t, type_params o' !! y = Some t /\ type_symbol t = y /\
                 object_id t < length pre + next_id st) /\
    dom (type_params o') = dom (type_params o) ∪ list_to_set pre /\
    specializations o' = specializations o.
Proof.
  intros Hctx Hop Hnd Hfresh Hdup. eexists _, _.
  split; [by apply type_param_raise|].
  split; [apply heap_updated|].
  cbn [type_params with_type_params specializations].
  split; [intros k old; apply declare_all_old|].
  split; [|split; [apply dom_declare_all|reflexivity]].
  intros y Hy.
  destruct (declare_all_new pre (type_params o) (next_id st) y) as (t & H1 & H2 & H3);
    [by apply Hfresh|done|].
  exists t. split; [done|]. split; [done|lia].
Qed.

Lemma C4_duplicate_declaration_witness :
  exists st' o',
    type_param ["I"; "I"] (op_def_enter "matmul" (mkState ∅ None 0)).2 =
      (Raise (ValueError "Duplicate type parameter: TypeParam('I')"), st') /\
    heap st' !! 0 = Some o' /\
    exists t, type_params o' !! "I" = Some t /\ type_symbol t = "I".
Proof.
  destruct (C4_duplicate_declaration
              (op_def_enter "matmul" (mkState ∅ None 0)).2 0 (mkOpDef "matmul" ∅ [])
              ["I"] "I" [])
    as (st' & o' & H1 & H2 & _ & Hpre & _);
    [reflexivity|reflexivity|apply NoDup_singleton|intros y _; apply lookup_empty
    |right; apply list_elem_of_singleton; reflexivity|].
  exists st', o'. split; [exact H1|]. split; [exact H2|].
  destruct (Hpre "I") as (t & Ht & Hsym & Hid);
    [apply list_elem_of_singleton; reflexivity|].
  exists t. split; [exact Ht|exact Hsym].
Defined.

(** The doctest of [type_param]. *)
Example type_param_doctest :
  (with_op_def "matmul"
     (fun _ => type_param ["I"; "J"] ;; type_param ["I"])
     (mkState ∅ None 0)).1 =
  Raise (ValueError "Duplicate type parameter: TypeParam('I')").
Proof. vm_compute. reflexivity. Qed.

(** C5, as the code has it.  [add_type_param] with [exist_ok=True] always
    returns, and what it returns is [None].  When the name is in the
    registry nothing changes at all: the entry is the object it was.  When
    it is not, the given [TypeParam] is bound to the name and nothing else
    changes. *)
Theorem C5_declare_if_absent st self o t :
  heap st !! self = Some o ->
  exists st' o',
    add_type_param self t true st = (Return PyNone, st') /\
    heap st' !! self = Some o' /\
    (forall old, type_params o !! type_symbol t = Some old ->
                 st' = st /\ type_params o' !! type_symbol t = Some old) /\
    (type_params o !! type_symbol t = None ->
       type_params o' = <[type_symbol t := t]> (type_params o) /\
       op_name o' = op_name o /\
       specializations o' = specializations o /\
       CONTEXT_op_def st' = CONTEXT_op_def st /\
       forall l, l <> self -> heap st' !! l = heap st !! l).
Proof.
  intros Hop. erewrite add_type_param_run by exact Hop.
  destruct (type_params o !! type_symbol t) as [old|] eqn:E.
  - exists st, o. split; [reflexivity|]. split; [exact Hop|].
    split; [|discriminate]. intros ? [= <-]. by split.
  - eexists _, _. split; [reflexivity|]. split; [apply heap_updated|].
    split; [discriminate|]. intros _. cbn.
    repeat split. intros l Hl. by rewrite lookup_insert_ne.
Qed.

Lemma C5_declare_if_absent_witness :
  exists st' o',
    add_type_param 0 (mkTypeParam 1 "T") true (op_def_enter "matmul" (mkState ∅ None 0)).2 =
      (Return PyNone, st') /\
    heap st' !! 0 = Some o' /\
    type_params o' = <["T" := mkTypeParam 1 "T"]> ∅.
Proof.
  destruct (C5_declare_if_absent
              (op_def_enter "matmul" (mkState ∅ None 0)).2 0 (mkOpDef "matmul" ∅ [])
              (mkTypeParam 1 "T"))
    as (st' & o' & H1 & H2 & _ & Hnew); [reflexivity|].
  exists st', o'. split; [exact H1|]. split; [exact H2|].
  apply Hnew. reflexivity.
Defined.

(** C5 as stated fails: the call returns [None], not the [TypeParam] the
    registry holds.  Here [T] has been declared, as the object of identity
    1; declaring it again, if absent, returns [None]. *)
Lemma C5_returns_None :
  (heap ((op_def_enter "matmul" ;; type_param ["T"]) (mkState ∅ None 0)).2 !! 0)
    ≫= (fun o => type_params o !! "T") = Some (mkTypeParam 1 "T") /\
  (add_type_param 0 (mkTypeParam 7 "T") true
     ((op_def_enter "matmul" ;; type_param ["T"]) (mkState ∅ None 0)).2).1 =
    Return PyNone /\
  PyNone <> PyTypeParam (mkTypeParam 1 "T").
Proof. split; [|split]; [vm_compute; reflexivity..|discriminate]. Qed.

(** * The log of specializations *)

Lemma specialize_each_ok calls : forall st op o,
  CONTEXT_op_def st = Some op ->
  heap st !! op = Some o ->
  Forall (fun c : pydict => forallb (fun kv => is_ir_Type kv.2) c = true) calls ->
  exists st' o',
    specialize_each calls st = (Return PyNone, st') /\
    CONTEXT_op_def st' = Some op /\
    heap st' !! op = Some o' /\
    op_name o' = op_name o /\
    specializations o' =
      specializations o ++ map (fun c => binding_of c []) calls.
Proof.
  induction calls as [|c rest IH]; intros st op o Hctx Hop Hall.
  - exists st, o. cbn. by rewrite app_nil_r.
  - apply Forall_cons in Hall as [Hc Hrest].
    cbn [specialize_each].
    erewrite run_bind_Return by (by apply specialize_ok).
    match goal with |- context [specialize_each rest ?s] =>
      destruct (IH s op _ Hctx (heap_updated _ _ _ _) Hrest)
        as (st' & o' & Hrun & Hctx' & Hop' & Hname & Hspecs)
    end.
    exists st', o'. split; [exact Hrun|]. split; [done|]. split; [done|].
    split; [done|]. rewrite Hspecs. cbn. by rewrite <- app_assoc.
Qed.

(** C6. The log keeps the calls in their order and drops none.  With an
    [OpDef] active, after any sequence of calls of [specialize] on keyword
    dicts of [ir.Type]s, [specializations] is what it was followed by one
    entry per call, in the order of the calls, equal calls giving equal
    entries side by side.  Reading [specializations] changes nothing, and
    reading it twice gives the same list twice. *)
Theorem C6_log_order st op o calls :
  CONTEXT_op_def st = Some op ->
  heap st !! op = Some o ->
  Forall (fun c : pydict =>
            NoDup c.*1 /\ forallb (fun kv => is_ir_Type kv.2) c = true) calls ->
  exists st',
    specialize_each calls st = (Return PyNone, st') /\
    get_specializations op st' = (Return (specializations o ++ calls), st') /\
    (get_specializations op ≫= fun first =>
       get_specializations op ≫= fun second => mret (first, second)) st' =
      (Return (specializations o ++ calls, specializations o ++ calls), st').
Proof.
  intros Hctx Hop Hall.
  destruct (specialize_each_ok calls st op o) as (st' & o' & Hrun & _ & Hop' & _ & Hspecs);
    [done|done|by eapply Forall_impl; [exact Hall|intros c [_ ?]]|].
  assert (Hcalls : map (fun c => binding_of c []) calls = calls).
  { clear -Hall. induction Hall as [|c rest [Hc _] _ IH]; [reflexivity|].
    cbn. by rewrite IH, binding_of_keyword_dict. }
  rewrite Hcalls in Hspecs.
  assert (Hget : get_specializations op st' = (Return (specializations o ++ calls), st')).
  { erewrite get_specializations_run by exact Hop'. by rewrite Hspecs. }
  exists st'. split; [exact Hrun|]. split; [exact Hget|].
  erewrite run_bind_Return by exact Hget.
  erewrite run_bind_Return by exact Hget. reflexivity.
Qed.

Lemma C6_log_order_witness :
  exists st',
    specialize_each
      [[("T", PyIrType "f32" "Type(f32)")]; [("T", PyIrType "i8" "Type(i8)")];
       [("T", PyIrType "f32" "Type(f32)")]; [("T", PyIrType "f32" "Type(f32)")]]
      (op_def_enter "matmul" (mkState ∅ None 0)).2 = (Return PyNone, st') /\
    get_specializations 0 st' =
      (Return [[("T", PyIrType "f32" "Type(f32)")]; [("T", PyIrType "i8" "Type(i8)")];
               [("T", PyIrType "f32" "Type(f32)")]; [("T", PyIrType "f32" "Type(f32)")]],
       st').
Proof.
  destruct (C6_log_order
              (op_def_enter "matmul" (mkState ∅ None 0)).2 0 (mkOpDef "matmul" ∅ [])
              [[("T", PyIrType "f32" "Type(f32)")]; [("T", PyIrType "i8" "Type(i8)")];
               [("T", PyIrType "f32" "Type(f32)")]; [("T", PyIrType "f32" "Type(f32)")]])
    as (st' & H1 & H2 & _); [reflexivity|reflexivity| |].
  - repeat (apply Forall_cons; split; [split; [apply NoDup_singleton|reflexivity]|]).
    apply Forall_nil. exact I.
  - exists st'. split; [exact H1|exact H2].
Defined.

(** * The textual representation *)

Lemma append_empty_r (s : string) : s +:+ EmptyString = s.
Proof.
  induction s as [|c s IH]; [reflexivity|].
  change (String c (s +:+ EmptyString) = String c s). by f_equal.
Qed.

(** Splitting what follows a text without newline. *)
Lemma lines_of_append x : forall rest l ls,
  PyStr.contains_char PyStr.newline x = false ->
  lines_of rest = l :: ls ->
  lines_of (x +:+ rest) = (x +:+ l) :: ls.
Proof.
  induction x as [|c x IH]; intros rest l ls Hx Hrest; [exact Hrest|].
  cbn in Hx. apply orb_false_elim in Hx as [Hc Hx].
  change (String c x +:+ rest) with (String c (x +:+ rest)).
  change (String c x +:+ l) with (String c (x +:+ l)).
  cbn [lines_of]. rewrite Ascii.eqb_sym, Hc. by rewrite (IH rest l ls).
Qed.

Lemma lines_of_join lines :
  lines <> [] ->
  Forall (fun l => PyStr.contains_char PyStr.newline l = false) lines ->
  lines_of (PyStr.join PyStr.nl lines) = lines.
Proof.
  induction lines as [|x rest IH]; intros Hne Hall; [done|].
  apply Forall_cons in Hall as [Hx Hrest].
  destruct rest as [|y rest].
  - cbn. rewrite <- (append_empty_r x) at 1.
    erewrite lines_of_append; [|done|reflexivity]. by rewrite append_empty_r.
  - change (PyStr.join PyStr.nl (x :: y :: rest))
      with (x +:+ PyStr.nl +:+ PyStr.join PyStr.nl (y :: rest)).
    erewrite lines_of_append; [|done|].
    2:{ change (PyStr.nl +:+ ?s) with (String PyStr.newline s).
        cbn [lines_of]. rewrite Ascii.eqb_refl. rewrite IH by done. reflexivity. }
    by rewrite append_empty_r.
Qed.

Lemma lookup_map {A B} (f : A -> B) (l : list A) : forall i,
  map f l !! i = f <$> (l !! i).
Proof. induction l as [|a l IH]; intros [|i]; cbn; auto. Qed.

Lemma OpDef_repr_lines (self : OpDef) :
  OpDef_repr self =
  PyStr.join PyStr.nl
    (("OpDef<" +:+ op_name self +:+ ">:")
       :: map (fun s => "  " +:+ dict_repr s) (specializations self)).
Proof.
  unfold OpDef_repr.
  assert (H : forall (l : list pydict) init,
             fold_left (fun lines s => lines ++ ["  " +:+ dict_repr s]) l init =
             init ++ map (fun s => "  " +:+ dict_repr s) l).
  { induction l as [|s l IH]; intros init; cbn; [by rewrite app_nil_r|].
    by rewrite IH, <- app_assoc. }
  by rewrite H.
Qed.

(** The escapes of [repr] leave no newline: in either quote, the text for
    one character has none. *)
Lemma repr_char_no_newline (c : ascii) :
  PyStr.contains_char PyStr.newline (PyStr.repr_char PyStr.squote c) = false /\
  PyStr.contains_char PyStr.newline (PyStr.repr_char PyStr.dquote c) = false.
Proof.
  destruct c as [[] [] [] [] [] [] [] []]; split; vm_compute; reflexivity.
Qed.

Lemma contains_char_append c (s t : string) :
  PyStr.contains_char c (s +:+ t) = PyStr.contains_char c s || PyStr.contains_char c t.
Proof.
  induction s as [|d s IH]; [reflexivity|].
  change (String d s +:+ t) with (String d (s +:+ t)).
  cbn [PyStr.contains_char]. by rewrite IH, orb_assoc.
Qed.

(** [repr] of a [str] has no newline, whatever the [str]. *)
Lemma repr_no_newline (s : string) :
  PyStr.contains_char PyStr.newline (PyStr.repr s) = false.
Proof.
  assert (Hchars : forall quote,
             quote = PyStr.squote \/ quote = PyStr.dquote ->
             PyStr.contains_char PyStr.newline (PyStr.repr_chars quote s) = false).
  { intros quote Hq. induction s as [|c s IH]; [reflexivity|].
    cbn [PyStr.repr_chars]. rewrite contains_char_append, IH, orb_false_r.
    destruct Hq as [-> | ->]; apply repr_char_no_newline. }
  unfold PyStr.repr.
  destruct (PyStr.contains_char PyStr.squote s && negb (PyStr.contains_char PyStr.dquote s));
    cbn [PyStr.contains_char];
    rewrite contains_char_append, Hchars by auto; reflexivity.
Qed.

Lemma join_no_newline (sep : string) (l : list string) :
  PyStr.contains_char PyStr.newline sep = false ->
  Forall (fun x => PyStr.contains_char PyStr.newline x = false) l ->
  PyStr.contains_char PyStr.newline (PyStr.join sep l) = false.
Proof.
  intros Hsep Hall. induction Hall as [|x l Hx Hl IH]; [reflexivity|].
  destruct l as [|y l]; [exact Hx|].
  change (PyStr.join sep (x :: y :: l)) with (x +:+ sep +:+ PyStr.join sep (y :: l)).
  by rewrite !contains_char_append, Hx, Hsep, IH.
Qed.

(** The [repr] of a dict of values whose [repr]s have no newline has none:
    the keys are written by [repr], which escapes it. *)
Lemma dict_repr_no_newline (d : pydict) :
  Forall (fun kv => PyStr.contains_char PyStr.newline (py_repr kv.2) = false) d ->
  PyStr.contains_char PyStr.newline (dict_repr d) = false.
Proof.
  intros Hd. unfold dict_repr.
  rewrite !contains_char_append, join_no_newline; [reflexivity|reflexivity|].
  induction Hd as [|[k v] d Hv Hd IH]; cbn [map]; constructor; [|exact IH].
  cbn [fst snd] in *. by rewrite !contains_char_append, repr_no_newline, Hv.
Qed.

(** C9, as the code has it.  For an [OpDef] whose name has no newline and
    whose bound values have none in their [repr], the dump, split at its
    newlines, is this list of lines: first the name, as [OpDef<name>:];
    then one line per specialization, in the order of [specializations],
    each indented by two blanks and written as a dict, every key in its
    [repr] and every value in the [repr] its type gives it. *)
Theorem C9_textual_representation (self : OpDef) :
  PyStr.contains_char PyStr.newline (op_name self) = false ->
  Forall (Forall (fun kv => PyStr.contains_char PyStr.newline (py_repr kv.2) = false))
         (specializations self) ->
  lines_of (OpDef_repr self) =
  ("OpDef<" +:+ op_name self +:+ ">:")
    :: map (fun s =>
              "  {" +:+
              PyStr.join ", " (map (fun kv => PyStr.repr kv.1 +:+ ": " +:+ py_repr kv.2) s)
              +:+ "}")
           (specializations self).
Proof.
  intros Hname Hvalues.
  rewrite OpDef_repr_lines. apply lines_of_join; [done|].
  constructor.
  - by rewrite !contains_char_append, Hname.
  - induction Hvalues as [|s specs Hs Hspecs IH]; cbn [map]; constructor; [|exact IH].
    change (PyStr.contains_char PyStr.newline ("  " +:+ dict_repr s) = false).
    by rewrite contains_char_append, dict_repr_no_newline.
Qed.

(** The doctest of [specialize]. *)
Example specialize_doctest :
  (with_op_def "matmul"
     (fun op =>
        specialize [("T", PyIrType "f32" "Type(f32)"); ("TACCUM", PyIrType "f32" "Type(f32)")] ;;
        specialize [("T", PyIrType "i8" "Type(i8)"); ("TACCUM", PyIrType "i32" "Type(i32)")] ;;
        o ← load op; mret (OpDef_repr o))
     (mkState ∅ None 0)).1 =
  Return ("OpDef<matmul>:" +:+ PyStr.nl +:+
          "  {'T': Type(f32), 'TACCUM': Type(f32)}" +:+ PyStr.nl +:+
          "  {'T': Type(i8), 'TACCUM': Type(i32)}").
Proof. vm_compute. reflexivity. Qed.

Lemma C9_textual_representation_witness :
  lines_of (OpDef_repr (mkOpDef "matmul" ∅ [[("T", PyIrType "f32" "Type(f32)")]])) =
  ["OpDef<matmul>:"; "  {'T': Type(f32)}"].
Proof.
  apply (C9_textual_representation (mkOpDef "matmul" ∅ [[("T", PyIrType "f32" "Type(f32)")]])).
  - reflexivity.
  - repeat constructor.
Defined.

(** C9 as stated fails for a name, or a value, with a newline in its text.
    The dump of an [OpDef] named by the two lines [a] and [b], with no
    specialization, has two lines, and its name is on neither; the dump of
    one specialization whose value shows as two lines has three lines. *)
Lemma C9_newline_in_name_or_value :
  lines_of (OpDef_repr (mkOpDef ("a" +:+ PyStr.nl +:+ "b") ∅ [])) = ["OpDef<a"; "b>:"] /\
  lines_of (OpDef_repr
              (mkOpDef "m" ∅ [[("T", PyIrType "t" ("Type(" +:+ PyStr.nl +:+ ")"))]])) =
    ["OpDef<m>:"; "  {'T': Type("; ")}"].
Proof. split; vm_compute; reflexivity. Qed.

(** * No dangling reference *)

Lemma wf_state_initial : wf_state (mkState ∅ None 0).
Proof. intros op H. discriminate. Qed.

Lemma wf_state_updated st op o k : wf_state st -> wf_state (updated st op o k).
Proof.
  intros Hwf l Hl. cbn in Hl. destruct (decide (l = op)) as [->|Hne].
  - rewrite heap_updated. eauto.
  - rewrite heap_updated_ne by done. by apply Hwf.
Qed.

Lemma wf_state_op_def_enter st name : wf_state st -> wf_state (op_def_enter name st).2.
Proof.
  intros Hwf. destruct (CONTEXT_op_def st) as [old|] eqn:E.
  - by rewrite op_def_enter_active by (rewrite E; eauto).
  - rewrite op_def_enter_inactive by done. intros l [= <-]. cbn.
    rewrite lookup_insert_eq. eauto.
Qed.

Lemma wf_state_op_def_exit st : wf_state (op_def_exit st).2.
Proof. intros l Hl. by rewrite op_def_exit_clears in Hl. Qed.

(** The bindings are all [ir.Type]s, or there is a first one that is not. *)
Lemma first_invalid (items : pydict) :
  forallb (fun kv => is_ir_Type kv.2) items = true \/
  exists pre k v post,
    items = pre ++ (k, v) :: post /\
    forallb (fun kv => is_ir_Type kv.2) pre = true /\
    is_ir_Type v = false.
Proof.
  induction items as [|[k v] items IH]; [by left|].
  destruct (is_ir_Type v) eqn:Ev.
  - destruct IH as [IH|(pre & k' & v' & post & -> & Hpre & Hv')].
    + left. cbn. by rewrite Ev.
    + right. exists ((k, v) :: pre), k', v', post. cbn. by rewrite Ev.
  - right. by exists [], k, v, items.
Qed.

(** From a well-formed state [specialize] returns or raises, and the state
    it leaves is well formed. *)
Lemma specialize_safe st items :
  wf_state st ->
  (specialize items st).1 <> Dangling /\ wf_state (specialize items st).2.
Proof.
  intros Hwf. destruct (CONTEXT_op_def st) as [op|] eqn:Hctx.
  - destruct (Hwf op Hctx) as [o Hop].
    destruct (first_invalid items) as [Hall|(pre & k & v & post & -> & Hpre & Hv)].
    + erewrite specialize_ok by done. split; [done|by apply wf_state_updated].
    + erewrite specialize_raise by done. split; [done|by apply wf_state_updated].
  - by rewrite specialize_inactive.
Qed.

(** Likewise for [type_param]. *)
Lemma type_param_safe st type_symbols :
  wf_state st ->
  (type_param type_symbols st).1 <> Dangling /\ wf_state (type_param type_symbols st).2.
Proof.
  intros Hwf. destruct (CONTEXT_op_def st) as [op|] eqn:Hctx.
  - destruct (Hwf op Hctx) as [o Hop].
    destruct (decide (NoDup type_symbols)) as [Hnd|Hnd];
      [destruct (decide (Forall (fun x => type_params o !! x = None) type_symbols))
         as [Hfresh|Hold]|].
    { erewrite type_param_ok; [|done|done|done|by apply Forall_forall].
      split; [done|by apply wf_state_updated]. }
    all: destruct (first_duplicate type_symbols (type_params o))
        as (pre & x & post & -> & Hnd' & Hfresh & Hx);
      [|erewrite type_param_raise by done; split; [done|by apply wf_state_updated]].
    + right. apply not_Forall_Exists in Hold; [|apply _].
      apply Exists_exists in Hold as (x & Hin & Hx).
      exists x. split; [done|]. by apply not_eq_None_Some.
    + by left.
  - destruct type_symbols as [|x rest]; [done|].
    rewrite type_param_inactive by done. split; [done|]. intros l Hl. discriminate.
Qed.

(** * Further properties of [type_param] and [specialize] *)

(** Either the names are new and pairwise distinct, or the call splits at
    its first name that is already declared. *)
Lemma type_symbols_dichotomy (m : gmap string TypeParam) (names : list string) :
  (NoDup names /\ forall x, x ∈ names -> m !! x = None) \/
  exists pre x post,
    names = pre ++ x :: post /\ NoDup pre /\
    (forall y, y ∈ pre -> m !! y = None) /\
    (is_Some (m !! x) \/ x ∈ pre).
Proof.
  destruct (decide (NoDup names)) as [Hnd|Hnd];
    [destruct (decide (Forall (fun x => m !! x = None) names)) as [Hfresh|Hold]|].
  - left. split; [done|]. by apply Forall_forall.
  - right. apply first_duplicate. right.
    apply not_Forall_Exists in Hold; [|apply _].
    apply Exists_exists in Hold as (x & Hin & Hx).
    exists x. split; [done|]. by apply not_eq_None_Some.
  - right. apply first_duplicate. by left.
Qed.

(** With an [OpDef] active, [type_param] returns exactly when its names are
    pairwise distinct and none of them is declared yet; otherwise it raises
    the duplicate [ValueError], for one of its names. *)
Theorem type_param_returns_iff st op o type_symbols :
  CONTEXT_op_def st = Some op ->
  heap st !! op = Some o ->
  ((type_param type_symbols st).1 = Return PyNone <->
   NoDup type_symbols /\ forall x, x ∈ type_symbols -> type_params o !! x = None) /\
  (~ (NoDup type_symbols /\ forall x, x ∈ type_symbols -> type_params o !! x = None) ->
   exists x,
     x ∈ type_symbols /\
     (type_param type_symbols st).1 =
     Raise (ValueError ("Duplicate type parameter: TypeParam('" +:+ x +:+ "')"))).
Proof.
  intros Hctx Hop.
  destruct (type_symbols_dichotomy (type_params o) type_symbols)
    as [[Hnd Hfresh]|(pre & x & post & -> & Hnd & Hfresh & Hx)].
  - split; [|intros Hn; by destruct Hn].
    split; [done|]. intros _. by erewrite type_param_ok.
  - erewrite type_param_raise by done. split.
    + split; [discriminate|]. intros [Hnd' Hfresh']. exfalso.
      destruct Hx as [[old Hold]|Hin].
      * rewrite Hfresh' in Hold by set_solver. discriminate.
      * apply NoDup_app in Hnd' as (_ & Hdisj & _). apply (Hdisj x Hin). set_solver.
    + intros _. exists x. split; [set_solver|reflexivity].
Qed.

Lemma type_param_returns_iff_witness :
  (type_param ["I"; "J"] (op_def_enter "matmul" (mkState ∅ None 0)).2).1 = Return PyNone /\
  exists x,
    (type_param ["I"; "I"] (op_def_enter "matmul" (mkState ∅ None 0)).2).1 =
    Raise (ValueError ("Duplicate type parameter: TypeParam('" +:+ x +:+ "')")).
Proof.
  split.
  - apply (type_param_returns_iff _ 0 (mkOpDef "matmul" ∅ [])); [reflexivity..|].
    split; [|intros x _; apply lookup_empty].
    apply NoDup_cons. split; [|apply NoDup_singleton].
    intros H. apply list_elem_of_singleton in H. discriminate.
  - destruct (type_param_returns_iff
                (op_def_enter "matmul" (mkState ∅ None 0)).2 0 (mkOpDef "matmul" ∅ [])
                ["I"; "I"]) as [_ Hraise]; [reflexivity..|].
    destruct Hraise as (x & _ & Hx).
    + intros [Hnd _]. apply NoDup_cons in Hnd as [Hnin _].
      apply Hnin. apply list_elem_of_singleton. reflexivity.
    + by exists x.
Defined.

(** What a call of [type_param] that returns has done: the registry has
    gained its names and no other, each bound to a [TypeParam] of that name
    made by the call; the entries it had are the objects they were; the
    specializations and the name of the [OpDef] are as before. *)
Theorem type_param_declares st op o type_symbols :
  CONTEXT_op_def st = Some op ->
  heap st !! op = Some o ->
  NoDup type_symbols ->
  (forall x, x ∈ type_symbols -> type_params o !! x = None) ->
  exists st' o',
    type_param type_symbols st = (Return PyNone, st') /\
    heap st' !! op = Some o' /\
    dom (type_params o') = dom (type_params o) ∪ list_to_set type_symbols /\
    (forall x, x ∈ type_symbols ->
       exists t, type_params o' !! x = Some t /\ type_symbol t = x /\
                 next_id st <= object_id t < next_id st') /\
    (forall x old, type_params o !! x = Some old -> type_params o' !! x = Some old) /\
    specializations o' = specializations o /\
    op_name o' = op_name o.
Proof.
  intros Hctx Hop Hnd Hfresh. eexists _, _.
  split; [by apply type_param_ok|]. split; [apply heap_updated|].
  cbn [type_params with_type_params specializations op_name next_id updated].
  split; [apply dom_declare_all|]. split.
  - intros x Hx.
    destruct (declare_all_new type_symbols (type_params o) (next_id st) x)
      as (t & H1 & H2 & H3); [by apply Hfresh|done|].
    exists t. split; [done|]. split; [done|lia].
  - split; [intros x old; apply declare_all_old|]. by split.
Qed.

Lemma type_param_declares_witness :
  exists st' o',
    type_param ["I"; "J"] (op_def_enter "matmul" (mkState ∅ None 0)).2 = (Return PyNone, st') /\
    heap st' !! 0 = Some o' /\
    dom (type_params o') = ∅ ∪ list_to_set ["I"; "J"].
Proof.
  destruct (type_param_declares
              (op_def_enter "matmul" (mkState ∅ None 0)).2 0 (mkOpDef "matmul" ∅ [])
              ["I"; "J"])
    as (st' & o' & H1 & H2 & H3 & _); [reflexivity..| | |].
  - apply NoDup_cons. split; [|apply NoDup_singleton].
    intros H. apply list_elem_of_singleton in H. discriminate.
  - intros x _. apply lookup_empty.
  - exists st', o'. split; [exact H1|]. split; [exact H2|exact H3].
Defined.

(** With an [OpDef] active, [specialize] returns exactly when every bound
    value is an [ir.Type]. *)
Theorem specialize_returns_iff st op o type_bindings :
  CONTEXT_op_def st = Some op ->
  heap st !! op = Some o ->
  (specialize type_bindings st).1 = Return PyNone <->
  forallb (fun kv => is_ir_Type kv.2) type_bindings = true.
Proof.
  intros Hctx Hop. split.
  - intros Hret.
    destruct (first_invalid type_bindings)
      as [H|(pre & k & v & post & -> & Hpre & Hv)]; [exact H|].
    erewrite specialize_raise in Hret by done. discriminate.
  - intros Hall. by erewrite specialize_ok.
Qed.

Lemma specialize_returns_iff_witness :
  (specialize [("T", PyIrType "f32" "Type(f32)"); ("TACCUM", PyIrType "f32" "Type(f32)")]
              (op_def_enter "matmul" (mkState ∅ None 0)).2).1 = Return PyNone.
Proof.
  apply (specialize_returns_iff _ 0 (mkOpDef "matmul" ∅ [])); reflexivity.
Defined.

(** What a call of [specialize] that returns has done, for any number of
    bindings, none included: the keyword dict is the new last element of
    [specializations]; the registry has gained the keys that were not
    declared, each bound to a [TypeParam] of that name made by the call, and
    has kept the objects it held, also under the keys of the call. *)
Theorem specialize_records st op o type_bindings :
  CONTEXT_op_def st = Some op ->
  heap st !! op = Some o ->
  NoDup type_bindings.*1 ->
  forallb (fun kv => is_ir_Type kv.2) type_bindings = true ->
  exists st' o',
    specialize type_bindings st = (Return PyNone, st') /\
    heap st' !! op = Some o' /\
    specializations o' = specializations o ++ [type_bindings] /\
    dom (type_params o') = dom (type_params o) ∪ list_to_set type_bindings.*1 /\
    (forall x, x ∈ type_bindings.*1 -> type_params o !! x = None ->
       exists t, type_params o' !! x = Some t /\ type_symbol t = x /\
                 next_id st <= object_id t < next_id st') /\
    (forall x old, type_params o !! x = Some old -> type_params o' !! x = Some old) /\
    op_name o' = op_name o.
Proof.
  intros Hctx Hop Hnd Hall. eexists _, _.
  split; [by apply specialize_ok|]. split; [apply heap_updated|].
  cbn [type_params specializations op_name next_id updated].
  split; [by rewrite binding_of_keyword_dict|].
  split; [apply dom_declare_all|]. split.
  - intros x Hx Hnew.
    destruct (declare_all_new type_bindings.*1 (type_params o) (next_id st) x)
      as (t & H1 & H2 & H3); [done|done|].
    exists t. split; [done|]. split; [done|]. rewrite length_fmap in H3. lia.
  - split; [intros x old; apply declare_all_old|reflexivity].
Qed.

Lemma specialize_records_witness :
  exists st' o',
    specialize [] (op_def_enter "matmul" (mkState ∅ None 0)).2 = (Return PyNone, st') /\
    heap st' !! 0 = Some o' /\
    specializations o' = [[]] /\
    OpDef_repr o' = "OpDef<matmul>:" +:+ PyStr.nl +:+ "  {}".
Proof.
  destruct (specialize_records
              (op_def_enter "matmul" (mkState ∅ None 0)).2 0 (mkOpDef "matmul" ∅ []) [])
    as (st' & o' & H1 & H2 & H3 & _ & _ & _ & H4); [reflexivity|reflexivity|apply NoDup_nil; exact I|reflexivity|].
  exists st', o'. split; [exact H1|]. split; [exact H2|]. split; [exact H3|].
  destruct o' as [n tp sp]. cbn in H3, H4. subst n sp. reflexivity.
Defined.

(** * What the calls never do *)

(** The state a call of [specialize] leaves, however it ends: names have
    been declared if absent, and at most one dict has been appended. *)
Lemma specialize_shape st op o items :
  CONTEXT_op_def st = Some op ->
  heap st !! op = Some o ->
  exists names new k,
    (specialize items st).2 =
    updated st op
      (mkOpDef (op_name o) (declare_all (type_params o) (next_id st) names)
               (specializations o ++ new)) k /\
    length new <= 1.
Proof.
  intros Hctx Hop.
  destruct (first_invalid items) as [Hall|(pre & k & v & post & -> & Hpre & Hv)].
  - erewrite specialize_ok by done. eexists _, [_], _. split; [reflexivity|]. cbn. lia.
  - erewrite specialize_raise by done. exists (pre.*1 ++ [k]), [], (S (length pre)).
    split; [|cbn; lia]. cbn. by rewrite app_nil_r.
Qed.

Lemma type_param_shape st op o type_symbols :
  CONTEXT_op_def st = Some op ->
  heap st !! op = Some o ->
  exists names k,
    (type_param type_symbols st).2 =
    updated st op
      (with_type_params o (declare_all (type_params o) (next_id st) names)) k.
Proof.
  intros Hctx Hop.
  destruct (type_symbols_dichotomy (type_params o) type_symbols)
    as [[Hnd Hfresh]|(pre & x & post & -> & Hnd & Hfresh & Hx)].
  - erewrite type_param_ok by done. by eexists _, _.
  - erewrite type_param_raise by done. by eexists _, _.
Qed.

(** Whether it returns or raises, [specialize] only adds: the active
    [OpDef] keeps its name, every entry of its registry stays the object it
    was, its specializations stay with at most one more behind them; the
    same [OpDef] is active afterwards and no other object has changed. *)
Theorem specialize_only_adds st op o type_bindings :
  CONTEXT_op_def st = Some op ->
  heap st !! op = Some o ->
  exists o',
    heap (specialize type_bindings st).2 !! op = Some o' /\
    op_name o' = op_name o /\
    (forall x old, type_params o !! x = Some old -> type_params o' !! x = Some old) /\
    (exists new, specializations o' = specializations o ++ new /\ length new <= 1) /\
    CONTEXT_op_def (specialize type_bindings st).2 = Some op /\
    (forall l, l <> op -> heap (specialize type_bindings st).2 !! l = heap st !! l).
Proof.
  intros Hctx Hop.
  destruct (specialize_shape st op o type_bindings) as (names & new & k & -> & Hnew);
    [done|done|].
  eexists. split; [apply heap_updated|]. split; [reflexivity|].
  split; [intros x old; apply declare_all_old|].
  split; [by exists new|]. split; [exact Hctx|].
  intros l Hl. by apply heap_updated_ne.
Qed.

Lemma specialize_only_adds_witness :
  exists o',
    heap (specialize [("T", PyOther "5" "5" None)]
                     (op_def_enter "matmul" (mkState ∅ None 0)).2).2 !! 0 = Some o' /\
    op_name o' = "matmul".
Proof.
  destruct (specialize_only_adds
              (op_def_enter "matmul" (mkState ∅ None 0)).2 0 (mkOpDef "matmul" ∅ [])
              [("T", PyOther "5" "5" None)])
    as (o' & H1 & H2 & _); [reflexivity..|].
  exists o'. split; [exact H1|exact H2].
Defined.

(** Likewise [type_param], which leaves the specializations as they are. *)
Theorem type_param_only_adds st op o type_symbols :
  CONTEXT_op_def st = Some op ->
  heap st !! op = Some o ->
  exists o',
    heap (type_param type_symbols st).2 !! op = Some o' /\
    op_name o' = op_name o /\
    (forall x old, type_params o !! x = Some old -> type_params o' !! x = Some old) /\
    specializations o' = specializations o /\
    CONTEXT_op_def (type_param type_symbols st).2 = Some op /\
    (forall l, l <> op -> heap (type_param type_symbols st).2 !! l = heap st !! l).
Proof.
  intros Hctx Hop.
  destruct (type_param_shape st op o type_symbols) as (names & k & ->); [done|done|].
  eexists. split; [apply heap_updated|]. split; [reflexivity|].
  split; [intros x old; apply declare_all_old|].
  split; [reflexivity|]. split; [exact Hctx|].
  intros l Hl. by apply heap_updated_ne.
Qed.

Lemma type_param_only_adds_witness :
  exists o',
    heap (type_param ["I"; "I"] (op_def_enter "matmul" (mkState ∅ None 0)).2).2 !! 0 = Some o' /\
    specializations o' = [].
Proof.
  destruct (type_param_only_adds
              (op_def_enter "matmul" (mkState ∅ None 0)).2 0 (mkOpDef "matmul" ∅ [])
              ["I"; "I"])
    as (o' & H1 & _ & _ & H2 & _); [reflexivity..|].
  exists o'. split; [exact H1|exact H2].
Defined.

(** ** The registry is keyed by name *)

Lemma keyed_by_name_declare_all names : forall m n,
  keyed_by_name m -> keyed_by_name (declare_all m n names).
Proof.
  induction names as [|x rest IH]; intros m n Hm; [exact Hm|].
  cbn. apply IH. unfold declare_if_absent. cbn.
  destruct (m !! x) eqn:E; [exact Hm|].
  intros k t Hk. destruct (decide (x = k)) as [<-|Hne].
  - rewrite lookup_insert_eq in Hk. by injection Hk as <-.
  - rewrite lookup_insert_ne in Hk by done. by apply Hm.
Qed.

(** The registry of a new [OpDef] is keyed by name, and each of
    [add_type_param], [type_param] and [specialize] keeps it so, however the
    call ends: a key is always the [type_symbol] of its [TypeParam]. *)
Theorem registry_keyed_by_name st op o :
  heap st !! op = Some o ->
  keyed_by_name (type_params o) ->
  (forall t exist_ok o',
     heap (add_type_param op t exist_ok st).2 !! op = Some o' ->
     keyed_by_name (type_params o')) /\
  (forall type_symbols o',
     CONTEXT_op_def st = Some op ->
     heap (type_param type_symbols st).2 !! op = Some o' ->
     keyed_by_name (type_params o')) /\
  (forall type_bindings o',
     CONTEXT_op_def st = Some op ->
     heap (specialize type_bindings st).2 !! op = Some o' ->
     keyed_by_name (type_params o')).
Proof.
  intros Hop Hkeyed. split; [|split].
  - intros t exist_ok o'. erewrite add_type_param_run by exact Hop.
    destruct (type_params o !! type_symbol t) eqn:E.
    + destruct exist_ok; cbn; rewrite Hop; by intros [= <-].
    + cbn. rewrite lookup_insert_eq. intros [= <-]. cbn.
      intros k t' Hk. destruct (decide (type_symbol t = k)) as [<-|Hne].
      * rewrite lookup_insert_eq in Hk. by injection Hk as <-.
      * rewrite lookup_insert_ne in Hk by done. by apply Hkeyed.
  - intros names o' Hctx.
    destruct (type_param_shape st op o names) as (ns & k & ->); [done|done|].
    rewrite heap_updated. intros [= <-]. by apply keyed_by_name_declare_all.
  - intros items o' Hctx.
    destruct (specialize_shape st op o items) as (ns & new & k & -> & _); [done|done|].
    rewrite heap_updated. intros [= <-]. by apply keyed_by_name_declare_all.
Qed.

Lemma registry_keyed_by_name_witness :
  exists o',
    heap (specialize [("T", PyIrType "f32" "Type(f32)")]
                     (op_def_enter "matmul" (mkState ∅ None 0)).2).2 !! 0 = Some o' /\
    keyed_by_name (type_params o').
Proof.
  destruct (registry_keyed_by_name
              (op_def_enter "matmul" (mkState ∅ None 0)).2 0 (mkOpDef "matmul" ∅ []))
    as (_ & _ & H); [reflexivity|intros k t Hk; cbn in Hk; by rewrite lookup_empty in Hk|].
  eexists. split; [reflexivity|].
  apply (H [("T", PyIrType "f32" "Type(f32)")]); reflexivity.
Defined.

(** * Scopes and the calls inside them *)

(** A [with op_def] inside another never runs its body and leaves the
    enclosing definition active and untouched: the nesting error is raised
    before the [try], so the [finally] clause of the inner [with] does not
    run. *)
Theorem nested_with_keeps_enclosing {A} st outer name (body : nat -> M A) :
  CONTEXT_op_def st = Some outer ->
  with_op_def name body st = (Raise (ValueError nesting_msg), st) /\
  current_op (with_op_def name body st).2 = (Return outer, st).
Proof.
  intros Hctx.
  assert (H : with_op_def name body st = (Raise (ValueError nesting_msg), st)).
  { unfold with_op_def. by rewrite op_def_enter_active by (rewrite Hctx; eauto). }
  split; [exact H|]. rewrite H. by apply current_op_active.
Qed.

Lemma nested_with_keeps_enclosing_witness :
  with_op_def "b" (fun _ => type_param ["I"]) (op_def_enter "a" (mkState ∅ None 0)).2 =
  (Raise (ValueError nesting_msg), (op_def_enter "a" (mkState ∅ None 0)).2).
Proof.
  exact (proj1 (nested_with_keeps_enclosing
                  (op_def_enter "a" (mkState ∅ None 0)).2 0 "b"
                  (fun _ => type_param ["I"]) eq_refl)).
Defined.

Lemma run_call_keeps_active st op o c :
  CONTEXT_op_def st = Some op ->
  heap st !! op = Some o ->
  ends_as_inside (run_call c st).1 /\
  CONTEXT_op_def (run_call c st).2 = Some op /\
  is_Some (heap (run_call c st).2 !! op).
Proof.
  intros Hctx Hop.
  destruct c as [names|items]; cbn [run_call].
  - split.
    + destruct (type_symbols_dichotomy (type_params o) names)
        as [[Hnd Hfresh]|(pre & x & post & -> & Hnd & Hfresh & Hx)].
      * left. by erewrite type_param_ok.
      * right; left. exists x. by erewrite type_param_raise.
    + destruct (type_param_shape st op o names) as (ns & k & ->); [done|done|].
      split; [exact Hctx|]. rewrite heap_updated. eauto.
  - split.
    + destruct (first_invalid items) as [Hall|(pre & k & v & post & -> & Hpre & Hv)].
      * left. by erewrite specialize_ok.
      * right; right. exists (py_str v). by erewrite specialize_raise.
    + destruct (specialize_shape st op o items) as (ns & new & k & -> & _); [done|done|].
      split; [exact Hctx|]. rewrite heap_updated. eauto.
Qed.

Lemma run_calls_keeps_active cs : forall st op o,
  CONTEXT_op_def st = Some op ->
  heap st !! op = Some o ->
  ends_as_inside (run_calls cs st).1 /\
  CONTEXT_op_def (run_calls cs st).2 = Some op.
Proof.
  induction cs as [|c rest IH]; intros st op o Hctx Hop; [split; [by left|done]|].
  cbn [run_calls]. rewrite run_bind.
  destruct (run_call_keeps_active st op o c) as (Hr & Hctx' & [o' Hop']); [done|done|].
  destruct (run_call c st) as [[a|e|] st1]; cbn [fst snd] in *.
  - by eapply IH.
  - done.
  - destruct Hr as [?|[[? ?]|[? ?]]]; discriminate.
Qed.

(** A block of calls of [type_param] and [specialize] under [with op_def]:
    the [with] statement ends as the block ends, returning when it returns
    and raising the block's own exception when it raises, which is a
    duplicate-parameter [ValueError] or a [TypeError]; the [finally] clause
    never fails; afterwards no [OpDef] is active and the objects are as the
    block left them. *)
Theorem with_op_def_block st name cs :
  CONTEXT_op_def st = None ->
  (with_op_def name (fun _ => run_calls cs) st).1 =
    (run_calls cs (op_def_enter name st).2).1 /\
  ends_as_inside (with_op_def name (fun _ => run_calls cs) st).1 /\
  CONTEXT_op_def (with_op_def name (fun _ => run_calls cs) st).2 = None /\
  heap (with_op_def name (fun _ => run_calls cs) st).2 =
    heap (run_calls cs (op_def_enter name st).2).2.
Proof.
  intros Hctx.
  destruct (run_calls_keeps_active cs (op_def_enter name st).2 (next_id st)
              (mkOpDef name ∅ [])) as [Hr Hctx'].
  { by rewrite op_def_enter_inactive. }
  { rewrite op_def_enter_inactive by done. apply lookup_insert_eq. }
  unfold with_op_def.
  rewrite op_def_enter_inactive in * by done. cbn [snd] in *.
  destruct (run_calls cs _) as [r st2] eqn:Hrun. cbn [fst snd] in *.
  rewrite op_def_exit_active by (rewrite Hctx'; eauto). cbn [fst snd].
  by repeat split.
Qed.

Lemma with_op_def_block_witness :
  (with_op_def "matmul"
     (fun _ => run_calls [CallTypeParam ["I"; "J"]; CallTypeParam ["I"];
                          CallSpecialize [("T", PyIrType "f32" "Type(f32)")]])
     (mkState ∅ None 0)).1 =
  Raise (ValueError "Duplicate type parameter: TypeParam('I')").
Proof.
  rewrite (proj1 (with_op_def_block (mkState ∅ None 0) "matmul"
                    [CallTypeParam ["I"; "J"]; CallTypeParam ["I"];
                     CallSpecialize [("T", PyIrType "f32" "Type(f32)")]] eq_refl)).
  reflexivity.
Defined.




(** A name that [specialize] has declared is declared for [type_param]
    too: after a call of [specialize] that returns, [type_param] on one of
    its keys raises the duplicate [ValueError] for that key. *)
Theorem type_param_after_specialize st op o type_bindings x rest :
  CONTEXT_op_def st = Some op ->
  heap st !! op = Some o ->
  forallb (fun kv => is_ir_Type kv.2) type_bindings = true ->
  x ∈ type_bindings.*1 ->
  ((specialize type_bindings ;; type_param (x :: rest)) st).1 =
  Raise (ValueError ("Duplicate type parameter: TypeParam('" +:+ x +:+ "')")).
Proof.
  intros Hctx Hop Hall Hx.
  erewrite run_bind_Return by (by apply specialize_ok).
  erewrite type_param_step; [|done|apply heap_updated].
  cbn [type_params].
  assert (Hin : is_Some (declare_all (type_params o) (next_id st) type_bindings.*1 !! x)).
  { apply elem_of_dom. rewrite dom_declare_all. set_solver. }
  destruct Hin as [t ->]. reflexivity.
Qed.

Lemma type_param_after_specialize_witness :
  ((specialize [("T", PyIrType "f32" "Type(f32)")] ;; type_param ["T"])
     (op_def_enter "matmul" (mkState ∅ None 0)).2).1 =
  Raise (ValueError "Duplicate type parameter: TypeParam('T')").
Proof.
  apply (type_param_after_specialize _ 0 (mkOpDef "matmul" ∅ [])); [reflexivity..|].
  apply list_elem_of_singleton. reflexivity.
Defined.

(** * Further properties of [TypeParam] and [add_type_param] *)

(** [x in l], for a list of [TypeParam]s, holds exactly when the list has a
    [TypeParam] of the name of [x]; objects of one identity being one
    object, the identity test of [in] adds nothing. *)
Theorem TypeParam_in_by_name (x : TypeParam) (l : list TypeParam) :
  (forall y, y ∈ l -> object_id y = object_id x -> y = x) ->
  TypeParam_in x l = true <-> exists y, y ∈ l /\ type_symbol y = type_symbol x.
Proof.
  intros Hid. unfold TypeParam_in. rewrite existsb_exists. split.
  - intros (y & Hy & Hor). apply list_elem_of_In in Hy. exists y. split; [done|].
    apply orb_prop in Hor as [Hsame|Heq].
    + apply Nat.eqb_eq in Hsame. by rewrite (Hid y Hy Hsame).
    + unfold TypeParam_eq in Heq. cbn in Heq. apply String.eqb_eq in Heq. done.
  - intros (y & Hy & Hname). exists y. split; [by apply list_elem_of_In|].
    apply orb_true_intro. right. unfold TypeParam_eq. cbn.
    apply String.eqb_eq. done.
Qed.

Lemma TypeParam_in_by_name_witness :
  TypeParam_in (mkTypeParam 0 "foo") [mkTypeParam 1 "foo"; mkTypeParam 2 "bar"] = true.
Proof.
  apply TypeParam_in_by_name.
  - intros y Hy Hsame. exfalso.
    apply elem_of_cons in Hy as [->|Hy]; [discriminate|].
    apply list_elem_of_singleton in Hy as ->. discriminate.
  - exists (mkTypeParam 1 "foo"). split; [|reflexivity]. apply elem_of_cons. by left.
Defined.

Lemma append_length (s t : string) :
  String.length (s +:+ t) = String.length s + String.length t.
Proof.
  induction s as [|c s IH]; [reflexivity|].
  change (S (String.length (s +:+ t)) = S (String.length s + String.length t)).
  by rewrite IH.
Qed.

Lemma append_inj_l (t : string) : forall s1 s2, s1 +:+ t = s2 +:+ t -> s1 = s2.
Proof.
  induction s1 as [|c s1 IH]; intros [|d s2] H.
  - reflexivity.
  - change (t = String d (s2 +:+ t)) in H.
    apply (f_equal String.length) in H.
    change (String.length t = S (String.length (s2 +:+ t))) in H.
    rewrite append_length in H. lia.
  - change (String c (s1 +:+ t) = t) in H.
    apply (f_equal String.length) in H.
    change (S (String.length (s1 +:+ t)) = String.length t) in H.
    rewrite append_length in H. lia.
  - change (String c (s1 +:+ t) = String d (s2 +:+ t)) in H.
    injection H as -> H. f_equal. by apply IH.
Qed.

(** The display of a [TypeParam] tells its name: two [TypeParam]s with one
    [repr] have one [type_symbol], so the message of the duplicate error
    names one parameter only. *)
Theorem TypeParam_repr_inj (a b : TypeParam) :
  TypeParam_repr a = TypeParam_repr b <-> type_symbol a = type_symbol b.
Proof.
  unfold TypeParam_repr. split; [|by intros ->].
  intros H.
  assert (H' : type_symbol a +:+ "')" = type_symbol b +:+ "')") by (by injection H).
  by apply append_inj_l in H'.
Qed.

(** [add_type_param] without [exist_ok]: on a declared name it raises the
    duplicate [ValueError] for that name and leaves the state as it was; on
    a new name it does what it does with [exist_ok]. *)
Theorem add_type_param_strict st self o t :
  heap st !! self = Some o ->
  (is_Some (type_params o !! type_symbol t) ->
   add_type_param self t false st =
   (Raise (ValueError ("Duplicate type parameter: TypeParam('" +:+ type_symbol t +:+ "')")),
    st)) /\
  (type_params o !! type_symbol t = None ->
   add_type_param self t false st = add_type_param self t true st).
Proof.
  intros Hop. rewrite !(add_type_param_run _ _ _ _ _ Hop). split.
  - intros [old ->]. reflexivity.
  - intros ->. reflexivity.
Qed.

Lemma add_type_param_strict_witness :
  add_type_param 0 (mkTypeParam 1 "T") false (op_def_enter "matmul" (mkState ∅ None 0)).2 =
  add_type_param 0 (mkTypeParam 1 "T") true (op_def_enter "matmul" (mkState ∅ None 0)).2.
Proof.
  destruct (add_type_param_strict
              (op_def_enter "matmul" (mkState ∅ None 0)).2 0 (mkOpDef "matmul" ∅ [])
              (mkTypeParam 1 "T")) as [_ H]; [reflexivity|].
  apply H. reflexivity.
Defined.
